(** * Multiplexed chain protocol layer of CovenantSQL (ThunderDB)

    A shallow embedding of
    - [sqlchain/mux.go]: the chain registry and the seven routing methods of
      [MuxService];
    - [cmd/cql-proxy/model/project_config.go]: the nil-safe predicates of
      [ProjectMiscConfig] and [ProjectOAuthConfig];
    followed by the properties the specification states about them. *)

From stdpp Require Import gmap strings list fin_maps.

(** ** The RPC surface of [MuxService] *)

(** The exported methods of [*MuxService] with the RPC signature
    [func (req *Req, resp *Resp) error], in source order. *)
Inductive MuxMethod :=
  | MAdviseNewBlock
  | MAdviseBinLog
  | MAdviseResponsedQuery
  | MAdviseAckedQuery
  | MFetchBlock
  | MFetchAckedQuery
  | MSignBilling.

#[global] Instance MuxMethod_eq_dec : EqDecision MuxMethod.
Proof. solve_decision. Defined.

Definition all_mux_methods : list MuxMethod :=
  [MAdviseNewBlock; MAdviseBinLog; MAdviseResponsedQuery; MAdviseAckedQuery;
   MFetchBlock; MFetchAckedQuery; MSignBilling].

Definition method_name (m : MuxMethod) : string :=
  match m with
  | MAdviseNewBlock => "AdviseNewBlock"
  | MAdviseBinLog => "AdviseBinLog"
  | MAdviseResponsedQuery => "AdviseResponsedQuery"
  | MAdviseAckedQuery => "AdviseAckedQuery"
  | MFetchBlock => "FetchBlock"
  | MFetchAckedQuery => "FetchAckedQuery"
  | MSignBilling => "SignBilling"
  end.

(** [server.RegisterService(serviceName, service)] publishes the exported
    methods of the service under their names; a call names the method it
    wants. [register] and [unregister] are unexported and not published. *)
Definition method_by_name (name : string) : option MuxMethod :=
  find (fun m => bool_decide (method_name m = name)) all_mux_methods.

(** The message catalog as the specification lists it (section 4.3), to
    set against the methods the source has. *)
Inductive CatalogOp :=
  | OpAdviseNewBlock
  | OpAdviseBinLog
  | OpAdviseResponsedQuery
  | OpAdviseAckedQuery
  | OpFetchBlock
  | OpFetchLastBlock
  | OpFetchBlockByCount
  | OpFetchAckedQuery
  | OpSignBilling.

Definition catalog_name (op : CatalogOp) : string :=
  match op with
  | OpAdviseNewBlock => "AdviseNewBlock"
  | OpAdviseBinLog => "AdviseBinLog"
  | OpAdviseResponsedQuery => "AdviseResponsedQuery"
  | OpAdviseAckedQuery => "AdviseAckedQuery"
  | OpFetchBlock => "FetchBlock"
  | OpFetchLastBlock => "FetchLastBlock"
  | OpFetchBlockByCount => "FetchBlockByCount"
  | OpFetchAckedQuery => "FetchAckedQuery"
  | OpSignBilling => "SignBilling"
  end.

(** A catalog operation is dispatchable through the router when the mux
    service publishes a method of that name. *)
Definition dispatchable (op : CatalogOp) : bool :=
  bool_decide (is_Some (method_by_name (catalog_name op))).

(** ** What [mux.go] imports

    [proto.Envelope] and [proto.DatabaseID] come from package [proto]; the
    inner request and response structs, [*ChainRPCService] with its seven
    methods and the sentinel [ErrUnknownMuxRequest] are declared in other
    files of package [sqlchain]. The router does not look inside any of
    them, and is parametric in them here. *)

Class ChainTypes := {
  (** [proto.Envelope] *)
  Envelope : Type;
  (** [proto.DatabaseID], a comparable key of [sync.Map] *)
  DatabaseID : Type;
  DatabaseID_eq_dec :: EqDecision DatabaseID;
  DatabaseID_countable :: Countable DatabaseID;
  (** the values of [*ChainRPCService]: handles of chain instances *)
  ChainRPCService : Type;
  (** the inner payload structs, [AdviseNewBlockReq] and so on *)
  InnerReq : MuxMethod -> Type;
  InnerResp : MuxMethod -> Type;
  (** the non-nil values of Go's [error] *)
  ErrorValue : Type;
  (** the memory owned by the chain instances *)
  ChainHeap : Type;
}.

(** Go's [error]: [None] is [nil]. *)
Definition error `{ChainTypes} : Type := option ErrorValue.

Section Payloads.
Context `{ChainTypes}.

Definition AdviseNewBlockReq := InnerReq MAdviseNewBlock.
Definition AdviseNewBlockResp := InnerResp MAdviseNewBlock.
Definition AdviseBinLogReq := InnerReq MAdviseBinLog.
Definition AdviseBinLogResp := InnerResp MAdviseBinLog.
Definition AdviseResponsedQueryReq := InnerReq MAdviseResponsedQuery.
Definition AdviseResponsedQueryResp := InnerResp MAdviseResponsedQuery.
Definition AdviseAckedQueryReq := InnerReq MAdviseAckedQuery.
Definition AdviseAckedQueryResp := InnerResp MAdviseAckedQuery.
Definition FetchBlockReq := InnerReq MFetchBlock.
Definition FetchBlockResp := InnerResp MFetchBlock.
Definition FetchAckedQueryReq := InnerReq MFetchAckedQuery.
Definition FetchAckedQueryResp := InnerResp MFetchAckedQuery.
Definition SignBillingReq := InnerReq MSignBilling.
Definition SignBillingResp := InnerResp MSignBilling.

(** A method of [*ChainRPCService]: it reads the inner request, may
    rewrite the inner response it was handed a pointer to, may change the
    memory of the chains, and returns an [error]. *)
Definition ChainMethod (Rq Rs : Type) : Type :=
  ChainRPCService -> Rq -> Rs -> ChainHeap -> ChainHeap * Rs * error.
End Payloads.

Class ChainCode `{ChainTypes} := {
  ErrUnknownMuxRequest : ErrorValue;
  ChainRPCService_AdviseNewBlock :
    ChainMethod AdviseNewBlockReq AdviseNewBlockResp;
  ChainRPCService_AdviseBinLog :
    ChainMethod AdviseBinLogReq AdviseBinLogResp;
  ChainRPCService_AdviseResponsedQuery :
    ChainMethod AdviseResponsedQueryReq AdviseResponsedQueryResp;
  ChainRPCService_AdviseAckedQuery :
    ChainMethod AdviseAckedQueryReq AdviseAckedQueryResp;
  ChainRPCService_FetchBlock :
    ChainMethod FetchBlockReq FetchBlockResp;
  ChainRPCService_FetchAckedQuery :
    ChainMethod FetchAckedQueryReq FetchAckedQueryResp;
  ChainRPCService_SignBilling :
    ChainMethod SignBillingReq SignBillingResp;
}.

(** ** [sqlchain/mux.go] *)

Section Mux.
Context `{ChainCode}.

(** [type MuxService struct { ServiceName string; serviceMap sync.Map }];
    [register] only ever stores [*ChainRPCService] values. *)
Record MuxService := mkMuxService {
  ServiceName : string;
  serviceMap : gmap DatabaseID ChainRPCService;
}.

(** The fourteen [Mux...Req] and [Mux...Resp] structs all embed
    [proto.Envelope], [proto.DatabaseID] and one inner payload. *)
Record MuxReq (Inner : Type) := mkMuxReq {
  req_Envelope : Envelope;
  req_DatabaseID : DatabaseID;
  req_Inner : Inner;
}.

Record MuxResp (Inner : Type) := mkMuxResp {
  resp_Envelope : Envelope;
  resp_DatabaseID : DatabaseID;
  resp_Inner : Inner;
}.

Arguments req_Envelope {Inner} _.
Arguments req_DatabaseID {Inner} _.
Arguments req_Inner {Inner} _.
Arguments resp_Envelope {Inner} _.
Arguments resp_DatabaseID {Inner} _.
Arguments resp_Inner {Inner} _.

Definition MuxAdviseNewBlockReq := MuxReq AdviseNewBlockReq.
Definition MuxAdviseNewBlockResp := MuxResp AdviseNewBlockResp.
Definition MuxAdviseBinLogReq := MuxReq AdviseBinLogReq.
Definition MuxAdviseBinLogResp := MuxResp AdviseBinLogResp.
Definition MuxAdviseResponsedQueryReq := MuxReq AdviseResponsedQueryReq.
Definition MuxAdviseResponsedQueryResp := MuxResp AdviseResponsedQueryResp.
Definition MuxAdviseAckedQueryReq := MuxReq AdviseAckedQueryReq.
Definition MuxAdviseAckedQueryResp := MuxResp AdviseAckedQueryResp.
Definition MuxFetchBlockReq := MuxReq FetchBlockReq.
Definition MuxFetchBlockResp := MuxResp FetchBlockResp.
Definition MuxFetchAckedQueryReq := MuxReq FetchAckedQueryReq.
Definition MuxFetchAckedQueryResp := MuxResp FetchAckedQueryResp.
Definition MuxSignBillingReq := MuxReq SignBillingReq.
Definition MuxSignBillingResp := MuxResp SignBillingResp.

(** One call of a chain-instance method, as a spy on the instances would
    record it: the receiver, the method, and the envelope and database id
    that the response object held when the call was made. *)
Record Invocation := mkInvocation {
  inv_receiver : ChainRPCService;
  inv_method : MuxMethod;
  inv_resp_Envelope : Envelope;
  inv_resp_DatabaseID : DatabaseID;
}.

(** Everything outside the router: the memory of the chain instances and
    the chronological record of the calls made on them. *)
Record World := mkWorld {
  heap : ChainHeap;
  calls : list Invocation;
}.

(** The zero [sync.Map] is empty. The registration of the service with
    the RPC server is [method_by_name]. *)
Definition NewMuxService (serviceName : string) : MuxService :=
  {| ServiceName := serviceName; serviceMap := ∅ |}.

(** [s.serviceMap.Store(id, service)] *)
Definition register (s : MuxService) (id : DatabaseID)
    (service : ChainRPCService) : MuxService :=
  {| ServiceName := ServiceName s;
     serviceMap := <[id := service]> (serviceMap s) |}.

(** [s.serviceMap.Delete(id)] *)
Definition unregister (s : MuxService) (id : DatabaseID) : MuxService :=
  {| ServiceName := ServiceName s;
     serviceMap := delete id (serviceMap s) |}.

(** [resp.Envelope = env] and [resp.DatabaseID = id] on the object behind
    the pointer [resp]. *)
Definition set_Envelope {Rs} (resp : MuxResp Rs) (env : Envelope)
    : MuxResp Rs :=
  {| resp_Envelope := env;
     resp_DatabaseID := resp_DatabaseID resp;
     resp_Inner := resp_Inner resp |}.

Definition set_DatabaseID {Rs} (resp : MuxResp Rs) (id : DatabaseID)
    : MuxResp Rs :=
  {| resp_Envelope := resp_Envelope resp;
     resp_DatabaseID := id;
     resp_Inner := resp_Inner resp |}.

(** [v.M(&req.Inner, &resp.Inner)] for [v] a [*ChainRPCService]: the instance sees
    the two inner structs only; what it leaves in the inner response is
    in the response object when the call returns, whatever the error. *)
Definition call_instance {Rq Rs} (m : MuxMethod) (f : ChainMethod Rq Rs)
    (v : ChainRPCService) (req : MuxReq Rq) (resp : MuxResp Rs)
    (w : World) : World * MuxResp Rs * error :=
  let seen := {| inv_receiver := v; inv_method := m;
                 inv_resp_Envelope := resp_Envelope resp;
                 inv_resp_DatabaseID := resp_DatabaseID resp |} in
  let '(h, inner, err) := f v (req_Inner req) (resp_Inner resp) (heap w) in
  ({| heap := h; calls := calls w ++ [seen] |},
   {| resp_Envelope := resp_Envelope resp;
      resp_DatabaseID := resp_DatabaseID resp;
      resp_Inner := inner |},
   err).

Definition AdviseNewBlock (s : MuxService) (req : MuxAdviseNewBlockReq)
    (resp : MuxAdviseNewBlockResp) (w : World)
    : World * MuxAdviseNewBlockResp * error :=
  match serviceMap s !! req_DatabaseID req with
  | Some v =>
      let resp := set_Envelope resp (req_Envelope req) in
      let resp := set_DatabaseID resp (req_DatabaseID req) in
      call_instance MAdviseNewBlock ChainRPCService_AdviseNewBlock v req resp w
  | None => (w, resp, Some ErrUnknownMuxRequest)
  end.

Definition AdviseBinLog (s : MuxService) (req : MuxAdviseBinLogReq)
    (resp : MuxAdviseBinLogResp) (w : World)
    : World * MuxAdviseBinLogResp * error :=
  match serviceMap s !! req_DatabaseID req with
  | Some v =>
      let resp := set_Envelope resp (req_Envelope req) in
      let resp := set_DatabaseID resp (req_DatabaseID req) in
      call_instance MAdviseBinLog ChainRPCService_AdviseBinLog v req resp w
  | None => (w, resp, Some ErrUnknownMuxRequest)
  end.

Definition AdviseResponsedQuery (s : MuxService)
    (req : MuxAdviseResponsedQueryReq) (resp : MuxAdviseResponsedQueryResp)
    (w : World) : World * MuxAdviseResponsedQueryResp * error :=
  match serviceMap s !! req_DatabaseID req with
  | Some v =>
      let resp := set_Envelope resp (req_Envelope req) in
      let resp := set_DatabaseID resp (req_DatabaseID req) in
      call_instance MAdviseResponsedQuery
        ChainRPCService_AdviseResponsedQuery v req resp w
  | None => (w, resp, Some ErrUnknownMuxRequest)
  end.

Definition AdviseAckedQuery (s : MuxService)
    (req : MuxAdviseAckedQueryReq) (resp : MuxAdviseAckedQueryResp)
    (w : World) : World * MuxAdviseAckedQueryResp * error :=
  match serviceMap s !! req_DatabaseID req with
  | Some v =>
      let resp := set_Envelope resp (req_Envelope req) in
      let resp := set_DatabaseID resp (req_DatabaseID req) in
      call_instance MAdviseAckedQuery
        ChainRPCService_AdviseAckedQuery v req resp w
  | None => (w, resp, Some ErrUnknownMuxRequest)
  end.

Definition FetchBlock (s : MuxService) (req : MuxFetchBlockReq)
    (resp : MuxFetchBlockResp) (w : World)
    : World * MuxFetchBlockResp * error :=
  match serviceMap s !! req_DatabaseID req with
  | Some v =>
      let resp := set_Envelope resp (req_Envelope req) in
      let resp := set_DatabaseID resp (req_DatabaseID req) in
      call_instance MFetchBlock ChainRPCService_FetchBlock v req resp w
  | None => (w, resp, Some ErrUnknownMuxRequest)
  end.

Definition FetchAckedQuery (s : MuxService) (req : MuxFetchAckedQueryReq)
    (resp : MuxFetchAckedQueryResp) (w : World)
    : World * MuxFetchAckedQueryResp * error :=
  match serviceMap s !! req_DatabaseID req with
  | Some v =>
      let resp := set_Envelope resp (req_Envelope req) in
      let resp := set_DatabaseID resp (req_DatabaseID req) in
      call_instance MFetchAckedQuery
        ChainRPCService_FetchAckedQuery v req resp w
  | None => (w, resp, Some ErrUnknownMuxRequest)
  end.

Definition SignBilling (s : MuxService) (req : MuxSignBillingReq)
    (resp : MuxSignBillingResp) (w : World)
    : World * MuxSignBillingResp * error :=
  match serviceMap s !! req_DatabaseID req with
  | Some v =>
      let resp := set_Envelope resp (req_Envelope req) in
      let resp := set_DatabaseID resp (req_DatabaseID req) in
      call_instance MSignBilling ChainRPCService_SignBilling v req resp w
  | None => (w, resp, Some ErrUnknownMuxRequest)
  end.

(** The method of the chain instance that a routing method forwards to. *)
Definition instance_method (m : MuxMethod)
    : ChainMethod (InnerReq m) (InnerResp m) :=
  match m with
  | MAdviseNewBlock => ChainRPCService_AdviseNewBlock
  | MAdviseBinLog => ChainRPCService_AdviseBinLog
  | MAdviseResponsedQuery => ChainRPCService_AdviseResponsedQuery
  | MAdviseAckedQuery => ChainRPCService_AdviseAckedQuery
  | MFetchBlock => ChainRPCService_FetchBlock
  | MFetchAckedQuery => ChainRPCService_FetchAckedQuery
  | MSignBilling => ChainRPCService_SignBilling
  end.

(** The RPC server's call of the routing method named [m]. *)
Definition dispatch (m : MuxMethod) : MuxService ->
    MuxReq (InnerReq m) -> MuxResp (InnerResp m) -> World ->
    World * MuxResp (InnerResp m) * error :=
  match m with
  | MAdviseNewBlock => AdviseNewBlock
  | MAdviseBinLog => AdviseBinLog
  | MAdviseResponsedQuery => AdviseResponsedQuery
  | MAdviseAckedQuery => AdviseAckedQuery
  | MFetchBlock => FetchBlock
  | MFetchAckedQuery => FetchAckedQuery
  | MSignBilling => SignBilling
  end.

(** Projections of a routing method's outcome. *)
Definition out_world {Rs} (r : World * MuxResp Rs * error) : World := r.1.1.
Definition out_resp {Rs} (r : World * MuxResp Rs * error) : MuxResp Rs := r.1.2.
Definition out_err {Rs} (r : World * MuxResp Rs * error) : error := r.2.

(** The calls a routing method added to the record [before]. *)
Definition new_calls (before after : World) : list Invocation :=
  drop (length (calls before)) (calls after).

(** The response object at the moment the instance is called: the
    caller's object after the two header assignments. *)
Definition with_header {Rq Rs} (req : MuxReq Rq) (resp : MuxResp Rs)
    : MuxResp Rs :=
  set_DatabaseID (set_Envelope resp (req_Envelope req)) (req_DatabaseID req).

(** What the instance's own method returns for this request, response and
    heap. *)
Definition instance_result (m : MuxMethod) (v : ChainRPCService)
    (req : MuxReq (InnerReq m))
    (resp : MuxResp (InnerResp m)) (w : World)
    : ChainHeap * InnerResp m * error :=
  instance_method m v (req_Inner req) (resp_Inner resp) (heap w).
End Mux.


Arguments req_Envelope {_ _} _.
Arguments req_DatabaseID {_ _} _.
Arguments req_Inner {_ _} _.
Arguments resp_Envelope {_ _} _.
Arguments resp_DatabaseID {_ _} _.
Arguments resp_Inner {_ _} _.
Arguments mkMuxReq {_ _} _ _ _.
Arguments mkMuxResp {_ _} _ _ _.

(** ** [cmd/cql-proxy/model/project_config.go] *)

Module model.

(** A Go pointer is [None] when nil. Evaluating an expression either gives
    a value or faults on a nil pointer; [None] is the fault. *)
Definition Eval (A : Type) : Type := option A.

(** [p != nil] *)
Definition not_nil {A} (p : option A) : Eval bool :=
  Some (match p with Some _ => true | None => false end).

(** [p.f]: selecting a field through a pointer faults when it is nil. *)
Definition field {S A} (p : option S) (f : S -> A) : Eval A :=
  match p with Some s => Some (f s) | None => None end.

(** [*p] *)
Definition deref {A} (p : option A) : Eval A := p.

(** [a && b]: [b] is evaluated only when [a] is true. *)
Definition and_then (a b : Eval bool) : Eval bool :=
  match a with
  | Some true => b
  | Some false => Some false
  | None => None
  end.

Module ProjectMiscConfig.
Record t := mk {
  Alias : string;
  Enabled : option bool;
  EnableSignUp : option bool;
  EnableSignUpVerification : option bool;
  SessionAge : Z;
}.

(** [return c != nil && c.Enabled != nil && *c.Enabled] *)
Definition IsEnabled (c : option t) : Eval bool :=
  and_then (not_nil c)
    (and_then (field c Enabled ≫= not_nil) (field c Enabled ≫= deref)).

(** [return c != nil && c.EnableSignUp != nil && *c.EnableSignUp] *)
Definition SupportSignUp (c : option t) : Eval bool :=
  and_then (not_nil c)
    (and_then (field c EnableSignUp ≫= not_nil)
              (field c EnableSignUp ≫= deref)).

(** [return c != nil && c.EnableSignUpVerification != nil &&
    *c.EnableSignUpVerification] *)
Definition ShouldVerifyAfterSignUp (c : option t) : Eval bool :=
  and_then (not_nil c)
    (and_then (field c EnableSignUpVerification ≫= not_nil)
              (field c EnableSignUpVerification ≫= deref)).
End ProjectMiscConfig.

Module ProjectOAuthConfig.
Record t := mk {
  ClientID : string;
  ClientSecret : string;
  Enabled : option bool;
}.

(** [return c != nil && c.Enabled != nil && *c.Enabled] *)
Definition IsEnabled (c : option t) : Eval bool :=
  and_then (not_nil c)
    (and_then (field c Enabled ≫= not_nil) (field c Enabled ≫= deref)).
End ProjectOAuthConfig.

(** The flag behind a possibly nil pointer to a possibly nil [*bool]:
    false unless both pointers are set. *)
Definition flag_of {S} (c : option S) (f : S -> option bool) : bool :=
  match c with
  | Some s => match f s with Some b => b | None => false end
  | None => false
  end.

End model.

(** ** The query lifecycle kept by a chain instance

    [mux.go] only calls [ChainRPCService]; the chain behind it is specified
    (sections 3 and 4.3 of the specification) by the lifecycle of a query.
    This module writes that lifecycle down and plugs it into the router as
    one possible [ChainCode]. *)

Module QueryLifecycle.

(** Modelled from the spec: the states of a query inside the chain
    instance, whose code [mux.go] only calls:
    "Submitted -> Responsed -> Acked -> Committed", and the terminal
    "Rejected". *)
Inductive QueryState :=
  | Submitted
  | Responsed
  | Acked
  | Committed
  | Rejected.

#[global] Instance QueryState_eq_dec : EqDecision QueryState.
Proof. solve_decision. Defined.

Definition QueryID := nat.

(** A table of the queries one chain knows, with the state of each. *)
Abbreviation QueryTable := (gmap nat QueryState).

(** A query advice as it reaches the instance: the query it is about and
    whether its attestation passed the (opaque) verification. *)
Record QueryAdvice := mkAdvice {
  adv_query : QueryID;
  adv_verified : bool;
}.

Inductive ChainError :=
  | ErrUnknownChain
  | ErrUnknownQuery
  | ErrOutOfOrder
  | ErrVerification
  | ErrBlockRejected.

#[global] Instance ChainError_eq_dec : EqDecision ChainError.
Proof. solve_decision. Defined.

(** Position of a state on the line
    [Submitted -> Responsed -> Acked -> Committed]. *)
Definition rank (s : QueryState) : nat :=
  match s with
  | Submitted => 0
  | Responsed => 1
  | Acked => 2
  | Committed => 3
  | Rejected => 4
  end.

(** [no_regress s s']: [s'] is [s] itself, or further along the line, or
    the terminal [Rejected] entered from a state that is not terminal. *)
Definition no_regress (s s' : QueryState) : bool :=
  match s, s' with
  | Rejected, Rejected => true
  | Rejected, _ => false
  | Committed, Rejected => false
  | _, Rejected => true
  | _, _ => rank s <=? rank s'
  end.

(** [arrow s s']: one transition of the lifecycle, along the line or from
    a state that is not terminal to [Rejected]. *)
Definition arrow (s s' : QueryState) : bool :=
  match s, s' with
  | Submitted, Responsed | Responsed, Acked | Acked, Committed => true
  | Submitted, Rejected | Responsed, Rejected | Acked, Rejected => true
  | _, _ => false
  end.

(** Modelled from the spec: the creation of a query, which happens outside
    [mux.go] ("created on client submission"). A query enters the table
    as [Submitted]; submitting a known query again changes nothing. *)
Definition submit (t : QueryTable) (q : QueryID) : QueryTable :=
  match t !! q with
  | None => <[q := Submitted]> t
  | Some _ => t
  end.

(** Modelled from the spec: the body of
    [ChainRPCService.AdviseResponsedQuery], which [mux.go] calls and does
    not define. "Instance records the response, moving the query from
    Submitted to Responsed; rejects if query unknown or already past this
    stage"; "a query that fails verification at any stage is moved to a
    terminal Rejected state". *)
Definition advise_responsed (t : QueryTable) (a : QueryAdvice)
    : QueryTable * option ChainError :=
  match t !! adv_query a with
  | None => (t, Some ErrUnknownQuery)
  | Some Submitted =>
      if adv_verified a
      then (<[adv_query a := Responsed]> t, None)
      else (<[adv_query a := Rejected]> t, Some ErrVerification)
  | Some _ => (t, Some ErrOutOfOrder)
  end.

(** Modelled from the spec: the body of [ChainRPCService.AdviseAckedQuery],
    which [mux.go] calls and does not define. "Instance moves the query from
    Responsed to Acked; rejects if query not yet Responsed"; a failed
    verification moves the query to [Rejected]. *)
Definition advise_acked (t : QueryTable) (a : QueryAdvice)
    : QueryTable * option ChainError :=
  match t !! adv_query a with
  | None => (t, Some ErrUnknownQuery)
  | Some Responsed =>
      if adv_verified a
      then (<[adv_query a := Acked]> t, None)
      else (<[adv_query a := Rejected]> t, Some ErrVerification)
  | Some _ => (t, Some ErrOutOfOrder)
  end.

Definition is_acked (t : QueryTable) (q : QueryID) : bool :=
  bool_decide (t !! q = Some Acked).

(** Modelled from the spec: the part of [ChainRPCService.AdviseNewBlock],
    called and not defined by [mux.go], that touches queries. A block is a batch of
    queries; an accepted block commits them. Only Acked queries are
    "eligible for inclusion", and a block is applied whole or not at all. *)
Definition advise_new_block (t : QueryTable) (qs : list QueryID)
    : QueryTable * option ChainError :=
  if forallb (is_acked t) qs
  then (foldl (fun t' q => <[q := Committed]> t') t qs, None)
  else (t, Some ErrBlockRejected).

(** Modelled from the spec: [ChainRPCService.FetchAckedQuery], called and
    not defined by [mux.go]: "returns queries in Acked state not yet committed into a
    block". *)
Definition fetch_acked (t : QueryTable) : list QueryID :=
  elements (dom (filter (fun kv => kv.2 = Acked) t)).

(** What can happen to a chain's queries, one event at a time. *)
Inductive ChainCall :=
  | CallSubmit (q : QueryID)
  | CallAdviseResponsedQuery (a : QueryAdvice)
  | CallAdviseAckedQuery (a : QueryAdvice)
  | CallAdviseNewBlock (qs : list QueryID).

Definition apply_call (t : QueryTable) (c : ChainCall) : QueryTable :=
  match c with
  | CallSubmit q => submit t q
  | CallAdviseResponsedQuery a => (advise_responsed t a).1
  | CallAdviseAckedQuery a => (advise_acked t a).1
  | CallAdviseNewBlock qs => (advise_new_block t qs).1
  end.

Definition run (t : QueryTable) (cs : list ChainCall) : QueryTable :=
  foldl apply_call t cs.

(** *** The lifecycle as the chain code behind the router *)

Definition lifecycle_InnerReq (m : MuxMethod) : Type :=
  match m with
  | MAdviseNewBlock => list QueryID
  | MAdviseResponsedQuery => QueryAdvice
  | MAdviseAckedQuery => QueryAdvice
  | _ => unit
  end.

Definition lifecycle_InnerResp (m : MuxMethod) : Type :=
  match m with
  | MFetchAckedQuery => list QueryID
  | _ => unit
  end.

(** Envelopes are numbered, databases are named, an instance handle is an
    address, and the heap holds the query table of each instance. *)
Definition lifecycle_types : ChainTypes :=
  {| Envelope := nat;
     DatabaseID := string;
     ChainRPCService := nat;
     InnerReq := lifecycle_InnerReq;
     InnerResp := lifecycle_InnerResp;
     ErrorValue := ChainError;
     ChainHeap := gmap nat QueryTable |}.

(** The table of instance [v]; an instance without queries has none. *)
Definition table_of (h : gmap nat QueryTable) (v : nat) : QueryTable :=
  default ∅ (h !! v).

(** A method that updates the instance's table and leaves the inner
    response alone. *)
Definition on_table {Rq Rs}
    (f : QueryTable -> Rq -> QueryTable * option ChainError)
    : @ChainMethod lifecycle_types Rq Rs :=
  fun v rq rs h =>
    let '(t, e) := f (table_of h v) rq in (<[v := t]> h, rs, e).

(** A method outside the query lifecycle: it accepts and changes nothing. *)
Definition inert {Rq Rs} : @ChainMethod lifecycle_types Rq Rs :=
  fun v rq rs h => (h, rs, None).

(** Modelled from the spec: the seven methods of [*ChainRPCService], which
    [mux.go] calls and does not define, as far as the query lifecycle
    goes. *)
Definition lifecycle_code : @ChainCode lifecycle_types :=
  {| ErrUnknownMuxRequest := ErrUnknownChain : @ErrorValue lifecycle_types;
     ChainRPCService_AdviseNewBlock := on_table advise_new_block;
     ChainRPCService_AdviseBinLog := inert;
     ChainRPCService_AdviseResponsedQuery := on_table advise_responsed;
     ChainRPCService_AdviseAckedQuery := on_table advise_acked;
     ChainRPCService_FetchBlock := inert;
     ChainRPCService_FetchAckedQuery :=
       fun v _ _ h => (h, fetch_acked (table_of h v), None);
     ChainRPCService_SignBilling := inert |}.

End QueryLifecycle.

(** ** A node hosting one database

    The scenario of the specification: one chain, ["db1"], registered with
    the mux service of a node; its instance lives at address 7 and knows one
    query, number 1, just submitted. *)

Module Scenario.
Import QueryLifecycle.
#[local] Existing Instance lifecycle_types.
#[local] Existing Instance lifecycle_code.

Definition fresh : MuxService := NewMuxService "sqlchain".

Definition node : MuxService := register fresh "db1" 7.

Definition world0 : World :=
  {| heap := {[ 7 := {[ 1 := Submitted ]} ]}; calls := [] |}.

(** A request for ["db1"] under envelope 42, and a response object whose
    header still holds what an earlier call left there. *)
Definition request (m : MuxMethod) (payload : InnerReq m)
    : MuxReq (InnerReq m) :=
  mkMuxReq 42 "db1" payload.

Definition stale (m : MuxMethod) (payload : InnerResp m)
    : MuxResp (InnerResp m) :=
  mkMuxResp 0 "other" payload.

Definition responsed1 : MuxAdviseResponsedQueryReq :=
  request MAdviseResponsedQuery (mkAdvice 1 true).

Definition acked1 : MuxAdviseAckedQueryReq :=
  request MAdviseAckedQuery (mkAdvice 1 true).

Definition fetch_acked_req : MuxFetchAckedQueryReq :=
  request MFetchAckedQuery tt.
End Scenario.

(** ** A chain whose instance answers with the router's sentinel

    [ErrUnknownMuxRequest] is a variable of package [sqlchain], the
    package of [ChainRPCService]; nothing in [mux.go] keeps an instance
    method from returning it. Here every method of the instance does. *)

Module Impostor.
Import QueryLifecycle.


End Impostor.

(** ** [kms]: the private key file

    [LoadPrivateKey], [SavePrivateKey] and [InitLocalKeyPair]. The file
    holds, encrypted under the master key, the double hash of the
    serialized key followed by the serialized key. *)

Module kms.

Abbreviation bytes := (list Byte.byte).

#[global] Instance byte_eq_dec : EqDecision Byte.byte.
Proof.
  intros x y. destruct (Byte.eqb x y) eqn:Heq.
  - left. by apply Byte.byte_dec_bl.
  - right. intros Hxy. apply Byte.byte_dec_lb in Hxy. congruence.
Defined.

(** The non-nil errors the package sees: its two sentinels,
    [*os.PathError], [os.ErrNotExist], and whatever the crypto packages
    return. *)
Inductive error_value :=
  | ErrNotKeyFile
  | ErrHashNotMatch
  | PathError (op path : string)
  | OsErrNotExist
  | ErrOther (code : nat).

#[global] Instance error_value_eq_dec : EqDecision error_value.
Proof. solve_decision. Defined.

(** Go's [error]: [None] is nil. *)
Definition error : Type := option error_value.

(** The type assertion of [err] to [*os.PathError]. *)
Definition is_PathError (e : error_value) : bool :=
  match e with PathError _ _ => true | _ => false end.

(** The files [ioutil.ReadFile] and [ioutil.WriteFile] work on: the
    contents of the regular files by path, the paths that are directories,
    the paths the process may not open for reading or for writing, and how
    many bytes a write gets down before the device gives out ([None]: as
    many as asked). *)
Record FS := mkFS {
  files : gmap string bytes;
  directories : gset string;
  unreadable : gset string;
  unwritable : gset string;
  room : option nat;
}.

(** [ioutil.ReadFile]: a [*os.PathError] of operation [open] when the path
    is missing or may not be opened, of operation [read] when it opens and
    cannot be read, as a directory. *)
Definition ReadFile (fs : FS) (path : string) : bytes * error :=
  if decide (path ∈ unreadable fs) then ([], Some (PathError "open" path))
  else if decide (path ∈ directories fs)
  then ([], Some (PathError "read" path))
  else match files fs !! path with
       | Some content => (content, None)
       | None => ([], Some (PathError "open" path))
       end.

Definition set_file (fs : FS) (path : string) (data : bytes) : FS :=
  {| files := <[path := data]> (files fs);
     directories := directories fs;
     unreadable := unreadable fs;
     unwritable := unwritable fs;
     room := room fs |}.

(** [ioutil.WriteFile]: opens the file for writing, creating or truncating
    it, and writes. When the open is refused nothing changes; when the
    write gives out, the file is left with the bytes that got down and the
    error is a [*os.PathError] of operation [write]. *)
Definition WriteFile (fs : FS) (path : string) (data : bytes) : FS * error :=
  if decide (path ∈ unwritable fs) then (fs, Some (PathError "open" path))
  else if decide (path ∈ directories fs)
  then (fs, Some (PathError "open" path))
  else match room fs with
       | Some n =>
           if n <? length data
           then (set_file fs path (take n data),
                 Some (PathError "write" path))
           else (set_file fs path data, None)
       | None => (set_file fs path data, None)
       end.

(** What the package imports from [btcec], [crypto/hash],
    [crypto/symmetric] and [crypto/asymmetric], and the local key store of
    the package (its other file). Encryption and key generation draw on a
    source of randomness. *)
Class Crypto := {
  PrivateKey : Type;
  PublicKey : Type;
  (** [hash.HashBSize] and [ec.PrivKeyBytesLen] *)
  HashBSize : nat;
  PrivKeyBytesLen : nat;
  (** [hash.DoubleHashB] *)
  DoubleHashB : bytes -> bytes;
  (** [key.Serialize()], [ec.PrivKeyFromBytes(ec.S256(), b)], [key.PubKey()] *)
  Serialize : PrivateKey -> bytes;
  PrivKeyFromBytes : bytes -> PrivateKey * PublicKey;
  PubKey : PrivateKey -> PublicKey;
  Entropy : Type;
  (** [symmetric.EncryptWithPassword], [symmetric.DecryptWithPassword] *)
  EncryptWithPassword : bytes -> bytes -> Entropy -> bytes * error * Entropy;
  DecryptWithPassword : bytes -> bytes -> bytes * error;
  (** [asymmetric.GenSecp256k1KeyPair] *)
  GenSecp256k1KeyPair : Entropy -> PrivateKey * PublicKey * error * Entropy;
  (** the local key store, [InitLocalKeyStore] and [SetLocalKeyPair] *)
  KeyStore : Type;
  InitLocalKeyStore : KeyStore -> KeyStore;
  SetLocalKeyPair : PrivateKey -> PublicKey -> KeyStore -> KeyStore;
}.

(** What the key file relies on: decryption undoes encryption under the
    same password, a double hash has [HashBSize] bytes, a serialized key
    has [PrivKeyBytesLen] bytes and parses back to the key. *)
Class CryptoLaws `{Crypto} : Prop := {
  decrypt_encrypt data password rnd out rnd' :
    EncryptWithPassword data password rnd = (out, None, rnd') ->
    DecryptWithPassword out password = (data, None);
  DoubleHashB_length data : length (DoubleHashB data) = HashBSize;
  Serialize_length key : length (Serialize key) = PrivKeyBytesLen;
  PrivKeyFromBytes_Serialize key :
    PrivKeyFromBytes (Serialize key) = (key, PubKey key);
}.

Section PrivateKeyFile.
Context `{Crypto}.

(** [func LoadPrivateKey(keyFilePath string, masterKey []byte)
     (key *ec.PrivateKey, err error)]; a nil [key] is [None]. *)
Definition LoadPrivateKey (fs : FS) (keyFilePath : string)
    (masterKey : bytes) : option PrivateKey * error :=
  let '(fileContent, err) := ReadFile fs keyFilePath in
  match err with
  | Some _ => (None, err)
  | None =>
      let '(decData, err) := DecryptWithPassword fileContent masterKey in
      match err with
      | Some _ => (None, err)
      | None =>
          if negb (length decData =? HashBSize + PrivKeyBytesLen)
          then (None, Some ErrNotKeyFile)
          else
            let computedHash := DoubleHashB (drop HashBSize decData) in
            if negb (bool_decide (computedHash = take HashBSize decData))
            then (None, Some ErrHashNotMatch)
            else (Some (PrivKeyFromBytes (drop HashBSize decData)).1, None)
      end
  end.

(** [func SavePrivateKey(keyFilePath string, key *ec.PrivateKey,
     masterKey []byte) (err error)] *)
Definition SavePrivateKey (fs : FS) (rnd : Entropy) (keyFilePath : string)
    (key : PrivateKey) (masterKey : bytes) : FS * Entropy * error :=
  let serializedKey := Serialize key in
  let keyHash := DoubleHashB serializedKey in
  let rawData := keyHash ++ serializedKey in
  let '(encKey, err, rnd) := EncryptWithPassword rawData masterKey rnd in
  match err with
  | Some _ => (fs, rnd, err)
  | None =>
      let '(fs, err) := WriteFile fs keyFilePath encKey in (fs, rnd, err)
  end.

(** The process as [InitLocalKeyPair] sees it. *)
Record Node := mkNode {
  node_fs : FS;
  node_rnd : Entropy;
  node_store : KeyStore;
}.

(** [func InitLocalKeyPair(privateKeyPath string, masterKey []byte)
     (err error)]. A generated pair is stored as it is; after a load
    [publicKey] is still nil and is taken from [privateKey.PubKey()], a
    fault ([None]) should the private key be nil. *)
Definition InitLocalKeyPair (n : Node) (privateKeyPath : string)
    (masterKey : bytes) : option (Node * error) :=
  let store := InitLocalKeyStore (node_store n) in
  let fs := node_fs n in
  let rnd := node_rnd n in
  let '(privateKey, err) := LoadPrivateKey fs privateKeyPath masterKey in
  match err with
  | Some e =>
      if bool_decide (e = ErrNotKeyFile)
      then Some (mkNode fs rnd store, err)
      else if is_PathError e || bool_decide (e = OsErrNotExist)
      then
        let '(priv, pub, err, rnd) := GenSecp256k1KeyPair rnd in
        match err with
        | Some _ => Some (mkNode fs rnd store, err)
        | None =>
            let '(fs, rnd, err) :=
              SavePrivateKey fs rnd privateKeyPath priv masterKey in
            match err with
            | Some _ => Some (mkNode fs rnd store, err)
            | None =>
                Some (mkNode fs rnd (SetLocalKeyPair priv pub store), None)
            end
        end
      else Some (mkNode fs rnd store, err)
  | None =>
      match privateKey with
      | None => None
      | Some priv =>
          Some (mkNode fs rnd (SetLocalKeyPair priv (PubKey priv) store),
                None)
      end
  end.
End PrivateKeyFile.

End kms.

(** ** A toy key file

    A small [Crypto] to run the key file code on: one-byte keys and
    hashes, and an encryption that reverses the data behind a marker
    byte. *)

Module ToyKms.
Import kms.

Definition toy_serialize (key : bool) : bytes :=
  [if key then Byte.x01 else Byte.x00].

Definition toy_parse (b : bytes) : bool * bool :=
  match b with
  | [Byte.x01] => (true, true)
  | _ => (false, false)
  end.

Definition toy_hash (data : bytes) : bytes :=
  [match data with
   | [] => Byte.xff
   | b :: _ => if bool_decide (b = Byte.x01) then Byte.xaa else Byte.x55
   end].

Definition toy_encrypt (data password : bytes) (rnd : nat)
    : bytes * error * nat :=
  (Byte.x01 :: rev data, None, S rnd).

Definition toy_decrypt (data password : bytes) : bytes * error :=
  match data with
  | Byte.x01 :: rest => (rev rest, None)
  | _ => ([], Some (ErrOther 1))
  end.

Definition toy_generate (rnd : nat) : bool * bool * error * nat :=
  (Nat.even rnd, Nat.even rnd, None, S rnd).

Definition toy : Crypto :=
  {| PrivateKey := bool;
     PublicKey := bool;
     HashBSize := 1;
     PrivKeyBytesLen := 1;
     DoubleHashB := toy_hash;
     Serialize := toy_serialize;
     PrivKeyFromBytes := toy_parse;
     PubKey := fun key => key;
     Entropy := nat;
     EncryptWithPassword := toy_encrypt;
     DecryptWithPassword := toy_decrypt;
     GenSecp256k1KeyPair := toy_generate;
     KeyStore := option (bool * bool);
     InitLocalKeyStore := fun store => store;
     SetLocalKeyPair := fun priv pub _ => Some (priv, pub) |}.

Definition key_path : string := "private.key".

Definition empty_fs : FS :=
  {| files := ∅; directories := ∅; unreadable := ∅; unwritable := ∅;
     room := None |}.

(** A disk with room for one more byte. *)
Definition full_fs : FS :=
  {| files := ∅; directories := ∅; unreadable := ∅; unwritable := ∅;
     room := Some 1 |}.

(** A disk holding the key [true], and one whose key file was cut short. *)
Definition good_fs : FS :=
  (@SavePrivateKey toy empty_fs O key_path true []).1.1.

Definition short_fs : FS :=
  {| files := {[ key_path := [Byte.x01; Byte.x01] ]};
     directories := ∅; unreadable := ∅; unwritable := ∅; room := None |}.

Definition tampered_fs : FS :=
  {| files := {[ key_path := [Byte.x01; Byte.x00; Byte.xaa] ]};
     directories := ∅; unreadable := ∅; unwritable := ∅; room := None |}.

Definition fresh_node : @Node toy :=
  @mkNode toy empty_fs O None.

Definition tampered_node : @Node toy :=
  @mkNode toy tampered_fs O None.

(** The node after its first [InitLocalKeyPair]. *)
Definition keyed_node : @Node toy :=
  match @InitLocalKeyPair toy fresh_node key_path [] with
  | Some (n, _) => n
  | None => fresh_node
  end.
End ToyKms.

(** ** [types]: the hash-stable encoding of [TokenReceive]

    The generated [MarshalHash] and [Msgsize] of [TokenReceive] and
    [TokenReceiveHeader]. *)

Module types.

Abbreviation bytes := (list Byte.byte).

(** Go's [int], 64 bits wide: sums wrap around. *)
Definition int_wrap (x : Z) : Z :=
  ((x + 2 ^ 63) `mod` 2 ^ 64 - 2 ^ 63)%Z.

Definition int_add (a b : Z) : Z := int_wrap (a + b).

(** The functions of package [hsp] (HashStablePack) the generated code
    calls, and the error values that marshalling can return. *)
Class Hsp := {
  MarshalError : Type;
  NilSize : Z;
  Require : bytes -> Z -> bytes;
  AppendNil : bytes -> bytes;
  AppendBytes : bytes -> bytes -> bytes;
}.

(** Go's [error]: [None] is nil. *)
Definition error `{Hsp} : Type := option MarshalError.

(** A type with generated [MarshalHash] and [Msgsize] methods. *)
Class HashStable `{Hsp} (T : Type) := {
  MarshalHash : T -> bytes * error;
  Msgsize : T -> Z;
}.

(** The types of the fields, declared in other packages together with
    their [MarshalHash] and [Msgsize]. *)
Class TokenFields `{Hsp} := {
  PublicKey : Type;
  Signature : Type;
  Hash : Type;
  TokenType : Type;
  Amount : Type;
  AccountNonce : Type;
  AccountAddress : Type;
  PublicKey_hs :: HashStable PublicKey;
  Signature_hs :: HashStable Signature;
  Hash_hs :: HashStable Hash;
  TokenType_hs :: HashStable TokenType;
  Amount_hs :: HashStable Amount;
  AccountNonce_hs :: HashStable AccountNonce;
  AccountAddress_hs :: HashStable AccountAddress;
}.

Section Generated.
Context `{TokenFields}.

(** The structs, as the generated code reads them; a nil pointer field is
    [None]. *)
Record TokenReceiveHeader := mkTokenReceiveHeader {
  hdr_Type : TokenType;
  hdr_Amount : Amount;
  hdr_Nonce : AccountNonce;
  hdr_Observer : AccountAddress;
  hdr_Receiver : AccountAddress;
}.

Record TokenReceive := mkTokenReceive {
  tr_Signee : option PublicKey;
  tr_Signature : option Signature;
  tr_TokenReceiveHeader : TokenReceiveHeader;
  tr_HeaderHash : Hash;
}.

(** [if oTemp, err := x.MarshalHash(); err != nil { return nil, err }
     else { o = hsp.AppendBytes(o, oTemp) }], followed by [rest]. *)
Definition append_marshalled (o : bytes) (marshalled : bytes * error)
    (rest : bytes -> bytes * error) : bytes * error :=
  let '(oTemp, err) := marshalled in
  match err with
  | Some _ => ([], err)
  | None => rest (AppendBytes o oTemp)
  end.

(** The same for a pointer field: [hsp.AppendNil(o)] when it is nil. *)
Definition append_pointer {T} `{!HashStable T} (o : bytes) (x : option T)
    (rest : bytes -> bytes * error) : bytes * error :=
  match x with
  | None => rest (AppendNil o)
  | Some x => append_marshalled o (MarshalHash x) rest
  end.

(** [func (z *TokenReceiveHeader) Msgsize() (s int)] *)
Definition TokenReceiveHeader_Msgsize (z : TokenReceiveHeader) : Z :=
  int_add (int_add (int_add (int_add (int_add (int_add (int_add (int_add
    (int_add (int_add 1 5) (Msgsize (hdr_Type z))) 7)
    (Msgsize (hdr_Amount z))) 6) (Msgsize (hdr_Nonce z))) 9)
    (Msgsize (hdr_Observer z))) 9) (Msgsize (hdr_Receiver z)).

(** [func (z *TokenReceiveHeader) MarshalHash() (o []byte, err error)] *)
Definition TokenReceiveHeader_MarshalHash (z : TokenReceiveHeader)
    : bytes * error :=
  let b : bytes := [] in
  let o := Require b (TokenReceiveHeader_Msgsize z) in
  let o := o ++ [Byte.x85; Byte.x85] in
  append_marshalled o (MarshalHash (hdr_Type z)) (fun o =>
  let o := o ++ [Byte.x85] in
  append_marshalled o (MarshalHash (hdr_Amount z)) (fun o =>
  let o := o ++ [Byte.x85] in
  append_marshalled o (MarshalHash (hdr_Nonce z)) (fun o =>
  let o := o ++ [Byte.x85] in
  append_marshalled o (MarshalHash (hdr_Observer z)) (fun o =>
  let o := o ++ [Byte.x85] in
  append_marshalled o (MarshalHash (hdr_Receiver z)) (fun o =>
  (o, None)))))).

(** [s += hsp.NilSize] or [s += x.Msgsize()] for a pointer field. *)
Definition pointer_Msgsize {T} `{!HashStable T} (x : option T) : Z :=
  match x with
  | None => NilSize
  | Some x => Msgsize x
  end.

(** [func (z *TokenReceive) Msgsize() (s int)] *)
Definition TokenReceive_Msgsize (z : TokenReceive) : Z :=
  let s := int_add 1 7 in
  let s := int_add s (pointer_Msgsize (tr_Signee z)) in
  let s := int_add s 10 in
  let s := int_add s (pointer_Msgsize (tr_Signature z)) in
  let s := int_add s
             (int_add (int_add (int_add 19
                (TokenReceiveHeader_Msgsize (tr_TokenReceiveHeader z))) 11)
                (Msgsize (tr_HeaderHash z))) in
  s.

(** [func (z *TokenReceive) MarshalHash() (o []byte, err error)] *)
Definition TokenReceive_MarshalHash (z : TokenReceive) : bytes * error :=
  let b : bytes := [] in
  let o := Require b (TokenReceive_Msgsize z) in
  let o := o ++ [Byte.x84; Byte.x84] in
  append_pointer o (tr_Signee z) (fun o =>
  let o := o ++ [Byte.x84] in
  append_pointer o (tr_Signature z) (fun o =>
  let o := o ++ [Byte.x84] in
  append_marshalled o
    (TokenReceiveHeader_MarshalHash (tr_TokenReceiveHeader z)) (fun o =>
  let o := o ++ [Byte.x84] in
  append_marshalled o (MarshalHash (tr_HeaderHash z)) (fun o =>
  (o, None))))).

(** The first error of a sequence of results, nil if all are nil. *)
Definition first_error (errs : list error) : error :=
  foldr (fun e later => match e with Some _ => e | None => later end)
        None errs.

(** The error of marshalling a pointer field: none when it is nil. *)
Definition pointer_error {T} `{!HashStable T} (x : option T) : error :=
  match x with
  | None => None
  | Some x => (MarshalHash x).2
  end.
(** The sizes [Msgsize] adds up, as plain integers, and the condition under
    which Go's [int] holds them: no field reports a negative size and the
    sum stays below [2 ^ 63]. *)
Definition header_sum (z : TokenReceiveHeader) : Z :=
  (37 + Msgsize (hdr_Type z) + Msgsize (hdr_Amount z)
      + Msgsize (hdr_Nonce z) + Msgsize (hdr_Observer z)
      + Msgsize (hdr_Receiver z))%Z.

Definition header_sizes_fit (z : TokenReceiveHeader) : Prop :=
  (0 <= Msgsize (hdr_Type z) /\ 0 <= Msgsize (hdr_Amount z) /\
   0 <= Msgsize (hdr_Nonce z) /\ 0 <= Msgsize (hdr_Observer z) /\
   0 <= Msgsize (hdr_Receiver z) /\ header_sum z < 2 ^ 63)%Z.

Definition receive_sum (z : TokenReceive) : Z :=
  (48 + pointer_Msgsize (tr_Signee z) + pointer_Msgsize (tr_Signature z)
      + header_sum (tr_TokenReceiveHeader z)
      + Msgsize (tr_HeaderHash z))%Z.

Definition receive_sizes_fit (z : TokenReceive) : Prop :=
  (header_sizes_fit (tr_TokenReceiveHeader z) /\
   0 <= pointer_Msgsize (tr_Signee z) /\
   0 <= pointer_Msgsize (tr_Signature z) /\
   0 <= Msgsize (tr_HeaderHash z) /\ receive_sum z < 2 ^ 63)%Z.
End Generated.

(** What the generated code relies on from [hsp] and from the fields:
    [Require] of the nil slice has no bytes, [AppendNil] adds [NilSize]
    bytes, [AppendBytes] adds the bytes behind a prefix of at most
    [BytesPrefixSize = 5] bytes, and a field's [Msgsize] bounds its own
    encoding. *)
Class HspLaws `{Hsp} : Prop := {
  Require_nil n : Require [] n = [];
  NilSize_nonneg : (0 <= NilSize)%Z;
  AppendNil_length o :
    Z.of_nat (length (AppendNil o)) = (Z.of_nat (length o) + NilSize)%Z;
  AppendBytes_length o b :
    (Z.of_nat (length (AppendBytes o b))
       <= Z.of_nat (length o) + 5 + Z.of_nat (length b))%Z;
}.

Class SizeBound `{Hsp} (T : Type) `{!HashStable T} : Prop := {
  Msgsize_bound (x : T) o :
    MarshalHash x = (o, None) -> (Z.of_nat (length o) <= Msgsize x)%Z;
}.

Class FieldLaws `{TokenFields} : Prop := {
  hsp_laws :: HspLaws;
  PublicKey_bound :: SizeBound PublicKey;
  Signature_bound :: SizeBound Signature;
  Hash_bound :: SizeBound Hash;
  TokenType_bound :: SizeBound TokenType;
  Amount_bound :: SizeBound Amount;
  AccountNonce_bound :: SizeBound AccountNonce;
  AccountAddress_bound :: SizeBound AccountAddress;
}.

End types.

(** ** A toy token

    Fields that are byte strings encoding as themselves, and an [hsp]
    whose byte-string prefix is two bytes long. *)

Module ToyToken.
Import types.

Definition toy_hsp : Hsp :=
  {| MarshalError := nat;
     NilSize := 1;
     Require := fun b _ => b;
     AppendNil := fun o => o ++ [Byte.xc0];
     AppendBytes := fun o b => o ++ [Byte.xc4; Byte.x00] ++ b |}.

Definition raw : @HashStable toy_hsp bytes :=
  {| MarshalHash := fun x => (x, None);
     Msgsize := fun x => Z.of_nat (length x) |}.

Definition toy_fields : @TokenFields toy_hsp :=
  {| PublicKey := bytes; Signature := bytes; Hash := bytes;
     TokenType := bytes; Amount := bytes; AccountNonce := bytes;
     AccountAddress := bytes;
     PublicKey_hs := raw; Signature_hs := raw; Hash_hs := raw;
     TokenType_hs := raw; Amount_hs := raw; AccountNonce_hs := raw;
     AccountAddress_hs := raw |}.

Definition header : @TokenReceiveHeader toy_hsp toy_fields :=
  @mkTokenReceiveHeader toy_hsp toy_fields
    [Byte.x01] [Byte.x02; Byte.x03] [] [Byte.x04] [Byte.x05].

(** A token receipt that is not signed yet. *)
Definition unsigned : @TokenReceive toy_hsp toy_fields :=
  @mkTokenReceive toy_hsp toy_fields None None header [Byte.x06].
End ToyToken.

(** ** [cmd/cql-proxy/model/project_config.go], the stored configs *)

Module config.

Abbreviation bytes := (list Byte.byte).

(** [type ProjectConfigType int16] and its four constants. *)
Definition ProjectConfigType : Type := Z.
Definition ProjectConfigMisc : ProjectConfigType := 0%Z.
Definition ProjectConfigOAuth : ProjectConfigType := 1%Z.
Definition ProjectConfigTable : ProjectConfigType := 2%Z.
Definition ProjectConfigGroup : ProjectConfigType := 3%Z.

(** [func (c ProjectConfigType) String() string] *)
Definition String (c : ProjectConfigType) : string :=
  if decide (c = ProjectConfigMisc) then "Misc"
  else if decide (c = ProjectConfigOAuth) then "OAuth"
  else if decide (c = ProjectConfigTable) then "Table"
  else if decide (c = ProjectConfigGroup) then "Group"
  else "Unknown".

Record ProjectTableConfig := mkProjectTableConfig {
  Columns : list string;
  Types : list string;
  Keys : gmap string string;
  Rules : bytes;
  PrimaryKey : string;
  AutoIncrement : bool;
  IsDeleted : bool;
}.

Record ProjectGroupConfig := mkProjectGroupConfig {
  Groups : gmap string (list Z);
}.

(** What the [interface{}] field [Value] holds: nothing, or a pointer
    (possibly nil) to one of the four config structs. *)
Inductive ConfigValue :=
  | NoValue
  | MiscValue (pc : option model.ProjectMiscConfig.t)
  | OAuthValue (pc : option model.ProjectOAuthConfig.t)
  | TableValue (pc : option ProjectTableConfig)
  | GroupValue (pc : option ProjectGroupConfig).

Record ProjectConfig := mkProjectConfig {
  ID : Z;
  Type_ : ProjectConfigType;
  Key : string;
  RawValue : bytes;
  Created : Z;
  LastUpdated : Z;
  Value : ConfigValue;
}.

(** Error values: those of the libraries, and what [errors.Wrapf] makes of
    them. *)
Inductive error_value :=
  | LibraryError (code : nat)
  | Wrapped (cause : error_value) (message : string).

Definition error : Type := option error_value.

(** [errors.Wrapf(err, message)]: nil for a nil [err]. *)
Definition Wrapf (err : error) (message : string) : error :=
  match err with
  | None => None
  | Some e => Some (Wrapped e message)
  end.

(** The three query texts of the file, all over the config table: every
    row of one type, the first row of one type, and the first row of one
    type and key. *)
Inductive Query :=
  | SelectByType
  | SelectOneByType
  | SelectOneByTypeAndKey.

(** An argument of a query. *)
Inductive Arg :=
  | IntArg (n : Z)
  | StringArg (s : string).

(** The database behind [*gorp.DbMap] and [encoding/json]: a query gives
    the rows it selected, or one row, and an error; an insert or update
    gives the new database, the row as the database left it, and an error;
    decoding into a pointer gives the pointer afterwards and an error. *)
Class Store := {
  DbMap : Type;
  Select : DbMap -> Query -> list Arg -> list ProjectConfig * error;
  SelectOne : DbMap -> Query -> list Arg -> option ProjectConfig * error;
  Insert : DbMap -> ProjectConfig -> DbMap * ProjectConfig * error;
  Update : DbMap -> ProjectConfig -> DbMap * error;
  Marshal : ConfigValue -> bytes * error;
  Unmarshal_Misc : bytes -> option model.ProjectMiscConfig.t * error;
  Unmarshal_OAuth : bytes -> option model.ProjectOAuthConfig.t * error;
  Unmarshal_Table : bytes -> option ProjectTableConfig * error;
  Unmarshal_Group : bytes -> option ProjectGroupConfig * error;
}.

Section Stored.
Context `{Store}.

Definition set_Value (p : ProjectConfig) (v : ConfigValue) : ProjectConfig :=
  {| ID := ID p; Type_ := Type_ p; Key := Key p; RawValue := RawValue p;
     Created := Created p; LastUpdated := LastUpdated p; Value := v |}.

Definition set_RawValue (p : ProjectConfig) (raw : bytes) : ProjectConfig :=
  {| ID := ID p; Type_ := Type_ p; Key := Key p; RawValue := raw;
     Created := Created p; LastUpdated := LastUpdated p; Value := Value p |}.

Definition set_Created (p : ProjectConfig) (t : Z) : ProjectConfig :=
  {| ID := ID p; Type_ := Type_ p; Key := Key p; RawValue := RawValue p;
     Created := t; LastUpdated := LastUpdated p; Value := Value p |}.

Definition set_LastUpdated (p : ProjectConfig) (t : Z) : ProjectConfig :=
  {| ID := ID p; Type_ := Type_ p; Key := Key p; RawValue := RawValue p;
     Created := Created p; LastUpdated := t; Value := Value p |}.

(** The body of the loop of [GetProjectTablesName]:
    [if ptc != nil && !ptc.IsDeleted { tables = append(tables, p.Key) }]
    after decoding [p.RawValue] into a fresh nil [ptc], the decoding error
    dropped. *)
Definition collect_table (tables : list string) (p : ProjectConfig)
    : list string :=
  let ptc := (Unmarshal_Table (RawValue p)).1 in
  match ptc with
  | Some c => if negb (IsDeleted c) then tables ++ [Key p] else tables
  | None => tables
  end.

(** A row after whose decoding the pointer holds a table config that is
    not deleted; whether decoding returned an error does not count. *)
Definition live_table (p : ProjectConfig) : bool :=
  match (Unmarshal_Table (RawValue p)).1 with
  | Some c => negb (IsDeleted c)
  | None => false
  end.

(** [func GetProjectTablesName(db *gorp.DbMap)
     (tables []string, err error)] *)
Definition GetProjectTablesName (db : DbMap) : list string * error :=
  let '(projects, err) :=
    Select db SelectByType [IntArg ProjectConfigTable] in
  match err with
  | Some _ => ([], Wrapf err "get project table config failed")
  | None => (foldl collect_table [] projects, None)
  end.

(** The four getters return [(p, pc, err)]; [None] is the fault of reading
    [p.RawValue] through a nil [p]. *)

(** [func GetProjectMiscConfig(db *gorp.DbMap)
     (p *ProjectConfig, pc *ProjectMiscConfig, err error)] *)
Definition GetProjectMiscConfig (db : DbMap)
    : option (option ProjectConfig * option model.ProjectMiscConfig.t
              * error) :=
  let '(p, err) :=
    SelectOne db SelectOneByType [IntArg ProjectConfigMisc] in
  match err with
  | Some _ => Some (p, None, Wrapf err "get project misc config failed")
  | None =>
      match p with
      | None => None
      | Some p =>
          let '(pc, err) := Unmarshal_Misc (RawValue p) in
          match err with
          | None => Some (Some (set_Value p (MiscValue pc)), pc, None)
          | Some _ =>
              Some (Some p, pc,
                    Wrapf err "resolve project misc config failed")
          end
      end
  end.

(** [func GetProjectOAuthConfig(db *gorp.DbMap, provider string)
     (p *ProjectConfig, pc *ProjectOAuthConfig, err error)] *)
Definition GetProjectOAuthConfig (db : DbMap) (provider : string)
    : option (option ProjectConfig * option model.ProjectOAuthConfig.t
              * error) :=
  let '(p, err) :=
    SelectOne db SelectOneByTypeAndKey
      [IntArg ProjectConfigOAuth; StringArg provider] in
  match err with
  | Some _ => Some (p, None, Wrapf err "get project oauth config failed")
  | None =>
      match p with
      | None => None
      | Some p =>
          let '(pc, err) := Unmarshal_OAuth (RawValue p) in
          match err with
          | None => Some (Some (set_Value p (OAuthValue pc)), pc, None)
          | Some _ =>
              Some (Some p, pc,
                    Wrapf err "resolve project oauth config data failed")
          end
      end
  end.

(** [func GetProjectTableConfig(db *gorp.DbMap, tableName string)
     (p *ProjectConfig, pc *ProjectTableConfig, err error)] *)
Definition GetProjectTableConfig (db : DbMap) (tableName : string)
    : option (option ProjectConfig * option ProjectTableConfig * error) :=
  let '(p, err) :=
    SelectOne db SelectOneByTypeAndKey
      [IntArg ProjectConfigTable; StringArg tableName] in
  match err with
  | Some _ => Some (p, None, Wrapf err "get project table config failed")
  | None =>
      match p with
      | None => None
      | Some p =>
          let '(pc, err) := Unmarshal_Table (RawValue p) in
          match err with
          | None => Some (Some (set_Value p (TableValue pc)), pc, None)
          | Some _ =>
              Some (Some p, pc,
                    Wrapf err "resolve project table config data failed")
          end
      end
  end.

(** [func GetProjectGroupConfig(db *gorp.DbMap)
     (p *ProjectConfig, gc *ProjectGroupConfig, err error)]; its test
    after decoding is [if err != nil { p.Value = gc } else
    { err = errors.Wrapf(err, ...) }]. *)
Definition GetProjectGroupConfig (db : DbMap)
    : option (option ProjectConfig * option ProjectGroupConfig * error) :=
  let '(p, err) :=
    SelectOne db SelectOneByType [IntArg ProjectConfigGroup] in
  match err with
  | Some _ => Some (p, None, Wrapf err "get project group config failed")
  | None =>
      match p with
      | None => None
      | Some p =>
          let '(gc, err) := Unmarshal_Group (RawValue p) in
          match err with
          | Some _ => Some (Some (set_Value p (GroupValue gc)), gc, err)
          | None =>
              Some (Some p, gc,
                    Wrapf err "resolve project group config failed")
          end
      end
  end.

(** [func AddProjectConfig(db *gorp.DbMap, configType ProjectConfigType,
     configKey string, value interface{}) (p *ProjectConfig, err error)];
    [now] is [time.Now().Unix()]. *)
Definition AddProjectConfig (db : DbMap) (now : Z)
    (configType : ProjectConfigType) (configKey : string)
    (value : ConfigValue) : DbMap * ProjectConfig * error :=
  let p := {| ID := 0%Z; Type_ := configType; Key := configKey;
              RawValue := []; Created := now; LastUpdated := 0%Z;
              Value := value |} in
  let '(raw, err) := Marshal (Value p) in
  let p := set_RawValue p raw in
  match err with
  | Some _ => (db, p, Wrapf err "encode project config data failed")
  | None =>
      let '(db, p, err) := Insert db p in
      match err with
      | Some _ => (db, p, Wrapf err "add project config record failed")
      | None => (db, p, err)
      end
  end.

(** [func AddRawProjectConfig(db *gorp.DbMap, p *ProjectConfig)
     (err error)]; the [ProjectConfig] returned is the caller's object
    afterwards. *)
Definition AddRawProjectConfig (db : DbMap) (now : Z) (p : ProjectConfig)
    : DbMap * ProjectConfig * error :=
  let '(raw, err) := Marshal (Value p) in
  let p := set_RawValue p raw in
  match err with
  | Some _ => (db, p, Wrapf err "encode project config data failed")
  | None =>
      let p := set_Created p now in
      let '(db, p, err) := Insert db p in
      match err with
      | Some _ => (db, p, Wrapf err "add project config record failed")
      | None => (db, p, err)
      end
  end.

(** [func UpdateProjectConfig(db *gorp.DbMap, p *ProjectConfig)
     (err error)] *)
Definition UpdateProjectConfig (db : DbMap) (now : Z) (p : ProjectConfig)
    : DbMap * ProjectConfig * error :=
  let '(raw, err) := Marshal (Value p) in
  let p := set_RawValue p raw in
  match err with
  | Some _ => (db, p, Wrapf err "encode project config data failed")
  | None =>
      let p := set_LastUpdated p now in
      let '(db, err) := Update db p in
      match err with
      | Some _ => (db, p, Wrapf err "update project config failed")
      | None => (db, p, err)
      end
  end.
End Stored.

End config.

(** ** A toy config table

    A database that is the list of its rows, and a decoding that reads a
    config off the first byte of the raw value and fails on none. *)

Module ToyStore.
Import config.

Definition has_type (ty : Z) (p : ProjectConfig) : bool :=
  bool_decide (Type_ p = ty).

Definition toy_select (db : list ProjectConfig) (q : Query)
    (args : list Arg) : list ProjectConfig * error :=
  match args with
  | IntArg ty :: _ => (List.filter (has_type ty) db, None)
  | _ => ([], Some (LibraryError 1))
  end.

Definition toy_select_one (db : list ProjectConfig) (q : Query)
    (args : list Arg) : option ProjectConfig * error :=
  match (toy_select db q args).1 with
  | p :: _ => (Some p, None)
  | [] => (None, Some (LibraryError 2))
  end.

Definition toy_table (deleted : bool) : ProjectTableConfig :=
  {| Columns := []; Types := []; Keys := ∅; Rules := [];
     PrimaryKey := EmptyString; AutoIncrement := false;
     IsDeleted := deleted |}.

Definition toy_store : Store :=
  {| DbMap := list ProjectConfig;
     Select := toy_select;
     SelectOne := toy_select_one;
     Insert := fun db p => (db ++ [p], p, None);
     Update := fun db p => (db, None);
     Marshal := fun v =>
       match v with
       | NoValue => ([], Some (LibraryError 3))
       | _ => ([Byte.x01], None)
       end;
     Unmarshal_Misc := fun raw =>
       match raw with
       | [] => (None, Some (LibraryError 4))
       | _ => (None, None)
       end;
     Unmarshal_OAuth := fun raw =>
       match raw with
       | [] => (None, Some (LibraryError 4))
       | _ => (None, None)
       end;
     Unmarshal_Table := fun raw =>
       match raw with
       | [] => (None, Some (LibraryError 4))
       | b :: _ =>
           if bool_decide (b = Byte.x05)
           then (Some (toy_table false), Some (LibraryError 5))
           else (Some (toy_table (bool_decide (b = Byte.x00))), None)
       end;
     Unmarshal_Group := fun raw =>
       match raw with
       | [] => (None, Some (LibraryError 4))
       | _ => (Some {| Groups := ∅ |}, None)
       end |}.

Definition row (ty : Z) (key : string) (raw : bytes) : ProjectConfig :=
  {| ID := 0%Z; Type_ := ty; Key := key; RawValue := raw;
     Created := 0%Z; LastUpdated := 0%Z; Value := NoValue |}.

(** Two live tables around a deleted one, one whose decoding fails
    before any config is allocated and one whose decoding fails after, and
    a group config. *)
Definition toy_db : list ProjectConfig :=
  [row 2 "users" [Byte.x01]; row 2 "old" [Byte.x00]; row 2 "broken" [];
   row 2 "half" [Byte.x05]; row 3 "groups" [Byte.x01];
   row 2 "posts" [Byte.x01]].
End ToyStore.

(** ** The compatibility test script

    The choice of binaries at the head of the script: each of the three
    programs comes from the previous release or from the current build. *)

Module compat_test.

Inductive BinDir :=
  | OLD_BIN_DIR
  | NEW_BIN_DIR.

#[global] Instance BinDir_eq_dec : EqDecision BinDir.
Proof. solve_decision. Defined.

Record Binaries := mkBinaries {
  CLIENTBIN : BinDir * string;
  BPBIN : BinDir * string;
  MINERBIN : BinDir * string;
}.

(** [case $test_case in ... esac]; [None] is [exit 1]. *)
Definition choose (test_case : string) : option Binaries :=
  if decide (test_case = "client") then
    Some {| CLIENTBIN := (OLD_BIN_DIR, "cql");
            BPBIN := (NEW_BIN_DIR, "cqld");
            MINERBIN := (NEW_BIN_DIR, "cql-minerd") |}
  else if decide (test_case = "bp") then
    Some {| CLIENTBIN := (NEW_BIN_DIR, "cql");
            BPBIN := (OLD_BIN_DIR, "cqld");
            MINERBIN := (NEW_BIN_DIR, "cql-minerd") |}
  else if decide (test_case = "miner") then
    Some {| CLIENTBIN := (NEW_BIN_DIR, "cql");
            BPBIN := (NEW_BIN_DIR, "cqld");
            MINERBIN := (OLD_BIN_DIR, "cql-minerd") |}
  else None.

(** The programs taken from the previous release. *)
Definition old_programs (b : Binaries) : list string :=
  snd <$> List.filter (fun bin => bool_decide (fst bin = OLD_BIN_DIR))
                      [CLIENTBIN b; BPBIN b; MINERBIN b].
End compat_test.

(** * Properties of the router *)

Section MuxProperties.
Context `{ChainCode}.

Implicit Types (m : MuxMethod) (s : MuxService) (w : World).
Implicit Types (id : DatabaseID) (v A B : ChainRPCService).

(** The seven routing methods share one body. *)
Lemma dispatch_body m s (req : MuxReq (InnerReq m))
    (resp : MuxResp (InnerResp m)) w :
  dispatch m s req resp w =
    match serviceMap s !! req_DatabaseID req with
    | Some v =>
        call_instance m (instance_method m) v req (with_header req resp) w
    | None => (w, resp, Some ErrUnknownMuxRequest)
    end.
Proof. destruct m; reflexivity. Qed.

Lemma dispatch_unknown m s (req : MuxReq (InnerReq m)) resp w :
  serviceMap s !! req_DatabaseID req = None ->
  dispatch m s req resp w = (w, resp, Some ErrUnknownMuxRequest).
Proof. intros Hnone. rewrite dispatch_body, Hnone. reflexivity. Qed.

Lemma dispatch_known m s v (req : MuxReq (InnerReq m)) resp w :
  serviceMap s !! req_DatabaseID req = Some v ->
  dispatch m s req resp w =
    call_instance m (instance_method m) v req (with_header req resp) w.
Proof. intros Hsome. rewrite dispatch_body, Hsome. reflexivity. Qed.

Lemma new_calls_refl w : new_calls w w = [].
Proof. unfold new_calls. apply drop_all. Qed.

Lemma call_instance_err {Rq Rs} m (f : ChainMethod Rq Rs) v req resp w :
  out_err (call_instance m f v req resp w)
    = (f v (req_Inner req) (resp_Inner resp) (heap w)).2.
Proof. unfold call_instance. by destruct (f _ _ _ _) as [[??]?]. Qed.

Lemma call_instance_heap {Rq Rs} m (f : ChainMethod Rq Rs) v req resp w :
  heap (out_world (call_instance m f v req resp w))
    = (f v (req_Inner req) (resp_Inner resp) (heap w)).1.1.
Proof. unfold call_instance. by destruct (f _ _ _ _) as [[??]?]. Qed.

Lemma call_instance_inner {Rq Rs} m (f : ChainMethod Rq Rs) v req resp w :
  resp_Inner (out_resp (call_instance m f v req resp w))
    = (f v (req_Inner req) (resp_Inner resp) (heap w)).1.2.
Proof. unfold call_instance. by destruct (f _ _ _ _) as [[??]?]. Qed.

Lemma call_instance_header {Rq Rs} m (f : ChainMethod Rq Rs) v req resp w :
  resp_Envelope (out_resp (call_instance m f v req resp w))
    = resp_Envelope resp /\
  resp_DatabaseID (out_resp (call_instance m f v req resp w))
    = resp_DatabaseID resp.
Proof. unfold call_instance. by destruct (f _ _ _ _) as [[??]?]. Qed.

Lemma call_instance_new_calls {Rq Rs} m (f : ChainMethod Rq Rs) v req resp w :
  new_calls w (out_world (call_instance m f v req resp w))
    = [mkInvocation v m (resp_Envelope resp) (resp_DatabaseID resp)].
Proof.
  unfold call_instance, new_calls.
  destruct (f _ _ _ _) as [[??]?]; simpl. apply drop_app_length.
Qed.

Lemma register_lookup s id v : serviceMap (register s id v) !! id = Some v.
Proof. apply lookup_insert_eq. Qed.

Lemma register_twice s id A B :
  register (register s id A) id B = register s id B.
Proof. unfold register; simpl. by rewrite insert_insert_eq. Qed.

Lemma unregister_lookup s id : serviceMap (unregister s id) !! id = None.
Proof. apply lookup_delete_eq. Qed.

Lemma unregister_absent s id :
  serviceMap s !! id = None -> unregister s id = s.
Proof.
  intros Hnone. destruct s as [name reg]; unfold unregister; simpl in *.
  by rewrite delete_id.
Qed.

(** C1. For a chain id with no entry in the registry, each of the seven
    routing methods returns [ErrUnknownMuxRequest]; no chain-instance
    method is called (the record of calls gains nothing and the chains'
    memory is the same), and the response object is exactly the one the
    caller supplied. *)
Theorem unknown_chain_fails_untouched m s (req : MuxReq (InnerReq m))
    (resp : MuxResp (InnerResp m)) w :
  serviceMap s !! req_DatabaseID req = None ->
  let r := dispatch m s req resp w in
  out_err r = Some ErrUnknownMuxRequest /\
  new_calls w (out_world r) = [] /\
  out_world r = w /\
  out_resp r = resp.
Proof.
  intros Hnone r. subst r. rewrite (dispatch_unknown _ _ _ _ _ Hnone).
  unfold out_err, out_world, out_resp; simpl.
  split_and!; try reflexivity. apply new_calls_refl.
Qed.

(** C2. [register] is last-write-wins. It is a total function of the
    registry with no error result; after [register id A] and then
    [register id B], on any prior registry, the binding of [id] is [B],
    the registry is the one a single [register id B] gives, and every
    routing method called for [id] is forwarded to [B]: the chains'
    memory, the inner response and the error that come back are those of
    [B]'s own method on the caller's inner request and response, and the
    one instance call made is on [B], so none is on an [A] different from
    [B]. *)
Theorem register_last_write_wins m s A B (req : MuxReq (InnerReq m))
    (resp : MuxResp (InnerResp m)) w :
  let id := req_DatabaseID req in
  let s' := register (register s id A) id B in
  let r := dispatch m s' req resp w in
  serviceMap s' !! id = Some B /\
  s' = register s id B /\
  r = call_instance m (instance_method m) B req (with_header req resp) w /\
  heap (out_world r) = (instance_result m B req resp w).1.1 /\
  resp_Inner (out_resp r) = (instance_result m B req resp w).1.2 /\
  out_err r = (instance_result m B req resp w).2 /\
  inv_receiver <$> new_calls w (out_world r) = [B] /\
  (A <> B -> A ∉ inv_receiver <$> new_calls w (out_world r)).
Proof.
  intros id s' r.
  assert (Hreg : serviceMap s' !! id = Some B) by apply register_lookup.
  assert (Hr : r = call_instance m (instance_method m) B req
                     (with_header req resp) w)
    by (subst r; by apply dispatch_known).
  assert (Hcalls : inv_receiver <$> new_calls w (out_world r) = [B])
    by (rewrite Hr, call_instance_new_calls; reflexivity).
  split_and!; try done.
  - apply register_twice.
  - rewrite Hr, call_instance_heap. reflexivity.
  - rewrite Hr, call_instance_inner. reflexivity.
  - rewrite Hr, call_instance_err. reflexivity.
  - intros Hne. rewrite Hcalls. by intros ?%list_elem_of_singleton.
Qed.

(** C3. After [unregister id] every routing method called for [id] fails
    with [ErrUnknownMuxRequest] (calling no instance and leaving the
    response alone); [unregister] of an id that has no binding returns
    the registry unchanged, and has no error result. *)
Theorem unregister_then_unknown m s (req : MuxReq (InnerReq m))
    (resp : MuxResp (InnerResp m)) w :
  let id := req_DatabaseID req in
  dispatch m (unregister s id) req resp w
    = (w, resp, Some ErrUnknownMuxRequest) /\
  (forall s0 id0, serviceMap s0 !! id0 = None -> unregister s0 id0 = s0).
Proof.
  intros id. split.
  - apply dispatch_unknown, unregister_lookup.
  - apply unregister_absent.
Qed.

(** C4. When the request's chain id is registered, the response returned
    by each of the seven routing methods has the request's [Envelope] and
    the request's [DatabaseID]. *)
Theorem response_header_copied m s v (req : MuxReq (InnerReq m))
    (resp : MuxResp (InnerResp m)) w :
  serviceMap s !! req_DatabaseID req = Some v ->
  let r := dispatch m s req resp w in
  resp_Envelope (out_resp r) = req_Envelope req /\
  resp_DatabaseID (out_resp r) = req_DatabaseID req.
Proof.
  intros Hsome r. subst r. rewrite (dispatch_known _ _ _ _ _ _ Hsome).
  apply call_instance_header.
Qed.


(** C8. When the request's chain id is registered, each routing method has
    already written the request's [Envelope] and [DatabaseID] into the
    response object when it calls the instance (the one call recorded shows
    them), and the returned response carries them whatever the instance
    returns: when the instance returns an error, the router returns that
    error together with a response whose header is already filled in. *)
Theorem header_written_before_call m s v (req : MuxReq (InnerReq m))
    (resp : MuxResp (InnerResp m)) w :
  serviceMap s !! req_DatabaseID req = Some v ->
  let r := dispatch m s req resp w in
  new_calls w (out_world r)
    = [mkInvocation v m (req_Envelope req) (req_DatabaseID req)] /\
  resp_Envelope (out_resp r) = req_Envelope req /\
  resp_DatabaseID (out_resp r) = req_DatabaseID req /\
  resp_Inner (out_resp r) = (instance_result m v req resp w).1.2 /\
  (forall e, (instance_result m v req resp w).2 = Some e ->
     out_err r = Some e /\
     resp_Envelope (out_resp r) = req_Envelope req /\
     resp_DatabaseID (out_resp r) = req_DatabaseID req).
Proof.
  intros Hsome r. subst r. rewrite (dispatch_known _ _ _ _ _ _ Hsome).
  pose proof (call_instance_header m (instance_method m) v req
                (with_header req resp) w) as [Henv Hid].
  rewrite call_instance_new_calls, call_instance_inner.
  split_and!; try done.
  intros e He. rewrite call_instance_err. done.
Qed.
End MuxProperties.

(** * The message catalog and the router's methods *)

Lemma method_by_name_complete (m : MuxMethod) :
  method_by_name (method_name m) = Some m.
Proof. by destruct m. Qed.

(** C6, as the code has it. The mux service publishes a routing method for
    seven of the nine catalog operations: all but [FetchLastBlock] and
    [FetchBlockByCount], which no method of [MuxService] serves. *)
Theorem mux_serves_seven_operations (op : CatalogOp) :
  dispatchable op =
    match op with
    | OpFetchLastBlock | OpFetchBlockByCount => false
    | _ => true
    end.
Proof. by destruct op. Qed.

(** C6, as stated, fails: [FetchLastBlock] and [FetchBlockByCount] are
    catalog operations that cannot be dispatched through the router. *)
Lemma mux_lacks_FetchLastBlock :
  method_by_name (catalog_name OpFetchLastBlock) = None /\
  method_by_name (catalog_name OpFetchBlockByCount) = None /\
  ~ (forall op : CatalogOp, dispatchable op = true).
Proof.
  split_and!; try reflexivity.
  intros Hall. specialize (Hall OpFetchLastBlock). done.
Qed.

(** * The project-config predicates *)

(** C10. [IsEnabled], [SupportSignUp] and [ShouldVerifyAfterSignUp] of
    [*ProjectMiscConfig] and [IsEnabled] of [*ProjectOAuthConfig] never
    fault: they evaluate to false when the receiver is nil or the flag
    pointer is nil, and to the pointed-to boolean otherwise. *)
Theorem config_predicates_nil_safe :
  (forall c, model.ProjectMiscConfig.IsEnabled c
     = Some (model.flag_of c model.ProjectMiscConfig.Enabled)) /\
  (forall c, model.ProjectMiscConfig.SupportSignUp c
     = Some (model.flag_of c model.ProjectMiscConfig.EnableSignUp)) /\
  (forall c, model.ProjectMiscConfig.ShouldVerifyAfterSignUp c
     = Some (model.flag_of c
               model.ProjectMiscConfig.EnableSignUpVerification)) /\
  (forall c, model.ProjectOAuthConfig.IsEnabled c
     = Some (model.flag_of c model.ProjectOAuthConfig.Enabled)).
Proof.
  split_and!.
  - intros [[? [[]|] ? ? ?]|]; reflexivity.
  - intros [[? ? [[]|] ? ?]|]; reflexivity.
  - intros [[? ? ? [[]|] ?]|]; reflexivity.
  - intros [[? ? [[]|]]|]; reflexivity.
Qed.

(** * The query lifecycle *)

Section LifecycleProperties.
Import QueryLifecycle.
#[local] Existing Instance lifecycle_types.
#[local] Existing Instance lifecycle_code.

Implicit Types (t : QueryTable) (q : QueryID) (s : QueryState).

Lemma no_regress_refl s : no_regress s s = true.
Proof. by destruct s. Qed.

Lemma no_regress_trans s1 s2 s3 :
  no_regress s1 s2 = true -> no_regress s2 s3 = true ->
  no_regress s1 s3 = true.
Proof. by destruct s1, s2, s3. Qed.

Lemma no_regress_antisym s s' :
  no_regress s s' = true -> no_regress s' s = true -> s = s'.
Proof. by destruct s, s'. Qed.

Lemma arrow_no_regress s s' : arrow s s' = true -> no_regress s s' = true.
Proof. by destruct s, s'. Qed.

Lemma lookup_commit_all (qs : list QueryID) t q :
  foldl (fun t' q' => <[q' := Committed]> t') t qs !! q
    = if decide (q ∈ qs) then Some Committed else t !! q.
Proof.
  revert t. induction qs as [|q0 qs IH]; intros t; simpl.
  - destruct (decide (q ∈ [])) as [Hin|_]; [|done].
    exfalso. by eapply not_elem_of_nil.
  - rewrite IH. destruct (decide (q ∈ qs)) as [Hin|Hnin].
    + rewrite decide_True; [done | by apply list_elem_of_further].
    + destruct (decide (q = q0)) as [->|Hne].
      * rewrite lookup_insert_eq, decide_True; [done | by apply list_elem_of_here].
      * rewrite lookup_insert_ne by done. rewrite decide_False; [done|].
        intros [?|?]%elem_of_cons; done.
Qed.

(** One call moves a known query by at most one arrow. *)
Lemma apply_call_arrow t (c : ChainCall) q s :
  t !! q = Some s ->
  exists s', apply_call t c !! q = Some s' /\ (s' = s \/ arrow s s' = true).
Proof.
  intros Hq. destruct c as [q0|a|a|qs]; simpl.
  - unfold submit. destruct (t !! q0) eqn:Hq0; [by eauto|].
    rewrite lookup_insert_ne by congruence. eauto.
  - unfold advise_responsed.
    destruct (t !! adv_query a) as [[]|] eqn:Ha; simpl; eauto.
    destruct (decide (adv_query a = q)) as [Heq|Hne].
    + rewrite Heq in Ha. assert (s = Submitted) as -> by congruence.
      destruct (adv_verified a); simpl; rewrite Heq, lookup_insert_eq; eauto.
    + destruct (adv_verified a); simpl; rewrite lookup_insert_ne by done;
        eauto.
  - unfold advise_acked.
    destruct (t !! adv_query a) as [[]|] eqn:Ha; simpl; eauto.
    destruct (decide (adv_query a = q)) as [Heq|Hne].
    + rewrite Heq in Ha. assert (s = Responsed) as -> by congruence.
      destruct (adv_verified a); simpl; rewrite Heq, lookup_insert_eq; eauto.
    + destruct (adv_verified a); simpl; rewrite lookup_insert_ne by done;
        eauto.
  - unfold advise_new_block.
    destruct (forallb (is_acked t) qs) eqn:Hall; simpl; [|by eauto].
    rewrite lookup_commit_all. case_decide as Hin; [|by eauto].
    rewrite forallb_forall in Hall.
    apply list_elem_of_In, Hall in Hin.
    unfold is_acked in Hin. apply bool_decide_eq_true in Hin.
    assert (s = Acked) as -> by congruence. eauto.
Qed.

(** Over any sequence of calls a known query stays known and its state
    never regresses. *)
Lemma run_no_regress (cs : list ChainCall) t q s :
  t !! q = Some s ->
  exists s', run t cs !! q = Some s' /\ no_regress s s' = true.
Proof.
  revert t s. induction cs as [|c cs IH]; intros t s Hq; simpl.
  - exists s. split; [done | apply no_regress_refl].
  - destruct (apply_call_arrow t c q s Hq) as (s1 & Hq1 & Hstep).
    destruct (IH _ _ Hq1) as (s' & Hq' & Hle).
    exists s'. split; [done|].
    destruct Hstep as [->|Harrow]; [done|].
    eapply no_regress_trans; [by apply arrow_no_regress | done].
Qed.

Lemma table_of_insert (h : gmap nat QueryTable) (v : nat) t :
  table_of (<[v := t]> h) v = t.
Proof. unfold table_of. by rewrite lookup_insert_eq. Qed.

Lemma on_table_err {Rq Rs}
    (f : QueryTable -> Rq -> QueryTable * option ChainError) v rq (rs : Rs) h :
  (on_table f v rq rs h).2 = (f (table_of h v) rq).2.
Proof. unfold on_table. by destruct (f _ _). Qed.

Lemma on_table_table {Rq Rs}
    (f : QueryTable -> Rq -> QueryTable * option ChainError) v rq (rs : Rs) h :
  table_of (on_table f v rq rs h).1.1 v = (f (table_of h v) rq).1.
Proof. unfold on_table. destruct (f _ _); simpl. apply table_of_insert. Qed.

Lemma fetch_acked_spec t q : q ∈ fetch_acked t <-> t !! q = Some Acked.
Proof.
  unfold fetch_acked. rewrite elem_of_elements, elem_of_dom.
  split.
  - intros [s' Hs]. apply map_lookup_filter_Some in Hs as [Hs Hacked].
    simpl in Hacked. by subst.
  - intros Hq. exists Acked. by apply map_lookup_filter_Some.
Qed.

(** The router's [AdviseResponsedQuery] and [AdviseAckedQuery] on a
    registered chain: error and query table are the instance's. *)
Lemma mux_AdviseResponsedQuery (s : MuxService) v
    (req : MuxAdviseResponsedQueryReq) resp w :
  serviceMap s !! req_DatabaseID req = Some v ->
  let r := AdviseResponsedQuery s req resp w in
  out_err r = (advise_responsed (table_of (heap w) v) (req_Inner req)).2 /\
  table_of (heap (out_world r)) v
    = (advise_responsed (table_of (heap w) v) (req_Inner req)).1.
Proof.
  intros Hsome r. subst r.
  change (AdviseResponsedQuery s req resp w) with (dispatch MAdviseResponsedQuery s req resp w).
  rewrite (@dispatch_known _ lifecycle_code MAdviseResponsedQuery s v req resp w Hsome).
  rewrite call_instance_err, call_instance_heap. simpl.
  split; [apply on_table_err | apply on_table_table].
Qed.

Lemma mux_AdviseAckedQuery (s : MuxService) v
    (req : MuxAdviseAckedQueryReq) resp w :
  serviceMap s !! req_DatabaseID req = Some v ->
  let r := AdviseAckedQuery s req resp w in
  out_err r = (advise_acked (table_of (heap w) v) (req_Inner req)).2 /\
  table_of (heap (out_world r)) v
    = (advise_acked (table_of (heap w) v) (req_Inner req)).1.
Proof.
  intros Hsome r. subst r.
  change (AdviseAckedQuery s req resp w) with (dispatch MAdviseAckedQuery s req resp w).
  rewrite (@dispatch_known _ lifecycle_code MAdviseAckedQuery s v req resp w Hsome).
  rewrite call_instance_err, call_instance_heap. simpl.
  split; [apply on_table_err | apply on_table_table].
Qed.

Lemma mux_FetchAckedQuery (s : MuxService) v
    (req : MuxFetchAckedQueryReq) resp w :
  serviceMap s !! req_DatabaseID req = Some v ->
  let r := FetchAckedQuery s req resp w in
  out_err r = None /\
  resp_Inner (out_resp r) = fetch_acked (table_of (heap w) v).
Proof.
  intros Hsome r. subst r.
  change (FetchAckedQuery s req resp w) with (dispatch MFetchAckedQuery s req resp w).
  rewrite (@dispatch_known _ lifecycle_code MFetchAckedQuery s v req resp w Hsome).
  rewrite call_instance_err, call_instance_inner. done.
Qed.
(** C7. The lifecycle of a query is one-directional. One call moves a
    known query by at most one arrow of
    [Submitted -> Responsed -> Acked -> Committed] or into the terminal
    [Rejected]; over any sequence of calls its state never regresses, and
    no state is reached again once left. Through the router, on a
    registered chain: [AdviseAckedQuery] for a query that is not in state
    [Responsed] is rejected with an error and the chain's queries stay as
    they were; [AdviseResponsedQuery] and then [AdviseAckedQuery] on a
    submitted query both succeed, leave it [Acked], and [FetchAckedQuery]
    returns it. *)
Theorem query_lifecycle_one_directional :
  (forall t (c : ChainCall) q s, t !! q = Some s ->
     exists s', apply_call t c !! q = Some s' /\
                (s' = s \/ arrow s s' = true)) /\
  (forall t (cs : list ChainCall) q s, t !! q = Some s ->
     exists s', run t cs !! q = Some s' /\ no_regress s s' = true) /\
  (forall s s', no_regress s s' = true -> no_regress s' s = true -> s = s') /\
  (forall (mux : MuxService) v (req : MuxAdviseAckedQueryReq) resp w,
     serviceMap mux !! req_DatabaseID req = Some v ->
     table_of (heap w) v !! adv_query (req_Inner req) <> Some Responsed ->
     let r := AdviseAckedQuery mux req resp w in
     is_Some (out_err r) /\
     table_of (heap (out_world r)) v = table_of (heap w) v) /\
  (forall (mux : MuxService) v id q env1 env2 env3 resp1 resp2 resp3 w,
     serviceMap mux !! id = Some v ->
     table_of (heap w) v !! q = Some Submitted ->
     let r1 := AdviseResponsedQuery mux
                 (mkMuxReq env1 id (mkAdvice q true)) resp1 w in
     let r2 := AdviseAckedQuery mux
                 (mkMuxReq env2 id (mkAdvice q true)) resp2 (out_world r1) in
     let r3 := FetchAckedQuery mux
                 (mkMuxReq env3 id tt) resp3 (out_world r2) in
     out_err r1 = None /\ out_err r2 = None /\
     table_of (heap (out_world r2)) v !! q = Some Acked /\
     out_err r3 = None /\ q ∈ resp_Inner (out_resp r3)).
Proof.
  split_and!.
  - apply apply_call_arrow.
  - intros t cs q s. apply run_no_regress.
  - apply no_regress_antisym.
  - intros mux v req resp w Hsome Hstate r.
    destruct (mux_AdviseAckedQuery mux v req resp w Hsome) as [Herr Htab].
    fold r in Herr, Htab. rewrite Herr, Htab.
    unfold advise_acked.
    destruct (table_of (heap w) v !! adv_query (req_Inner req))
      as [st|] eqn:Hq; simpl; [|split; [by eexists | done]].
    destruct (decide (st = Responsed)) as [->|Hne]; [done|].
    destruct st; simpl; try done; (split; [by eexists | done]).
  - intros mux v id q env1 env2 env3 resp1 resp2 resp3 w Hsome Hq r1 r2 r3.
    destruct (mux_AdviseResponsedQuery mux v
                (mkMuxReq env1 id (mkAdvice q true)) resp1 w Hsome)
      as [Herr1 Htab1].
    fold r1 in Herr1, Htab1.
    unfold advise_responsed in Herr1, Htab1; simpl in Herr1, Htab1.
    rewrite Hq in Herr1, Htab1; simpl in Herr1, Htab1.
    destruct (mux_AdviseAckedQuery mux v
                (mkMuxReq env2 id (mkAdvice q true)) resp2 (out_world r1)
                Hsome) as [Herr2 Htab2].
    fold r2 in Herr2, Htab2.
    unfold advise_acked in Herr2, Htab2; simpl in Herr2, Htab2.
    rewrite Htab1, lookup_insert_eq in Herr2, Htab2;
      simpl in Herr2, Htab2.
    destruct (mux_FetchAckedQuery mux v
                (mkMuxReq env3 id tt) resp3 (out_world r2) Hsome)
      as [Herr3 Hresp3].
    fold r3 in Herr3, Hresp3.
    pose proof (f_equal (fun t' : QueryTable => t' !! q) Htab2) as Hacked.
    simpl in Hacked. rewrite lookup_insert_eq in Hacked.
    pose proof (proj2 (fetch_acked_spec _ _) Hacked) as Hin.
    split_and!; try done.
    exact (eq_ind_r (fun l : list QueryID => q ∈ l) Hin Hresp3).
Qed.
End LifecycleProperties.

(** * The properties on the node of the scenario *)

Section OnTheNode.
Import QueryLifecycle Scenario.
#[local] Existing Instance lifecycle_types.
#[local] Existing Instance lifecycle_code.

(** Before ["db1"] is registered, [AdviseAckedQuery] for it fails with the
    routing error and touches nothing. *)
Lemma unknown_chain_fails_untouched_witness :
  serviceMap fresh !! req_DatabaseID acked1 = None /\
  let r := dispatch MAdviseAckedQuery fresh acked1
             (stale MAdviseAckedQuery tt) world0 in
  out_err r = Some ErrUnknownMuxRequest /\
  new_calls world0 (out_world r) = [] /\
  out_world r = world0 /\
  out_resp r = stale MAdviseAckedQuery tt.
Proof.
  assert (Hnone : serviceMap fresh !! req_DatabaseID acked1 = None)
    by reflexivity.
  split; [exact Hnone|].
  exact (unknown_chain_fails_untouched MAdviseAckedQuery fresh acked1
           (stale MAdviseAckedQuery tt) world0 Hnone).
Defined.

(** Registering instance 7 and then instance 8 for ["db1"]: the call goes
    to 8, not to 7. Instance 8 knows no query and says so, where instance
    7 would have called the acknowledgment out of order. *)
Lemma register_last_write_wins_witness :
  (7 : nat) <> 8 /\
  let r := dispatch MAdviseAckedQuery
             (register (register fresh "db1" 7) "db1" 8) acked1
             (stale MAdviseAckedQuery tt) world0 in
  out_err r = Some ErrUnknownQuery /\
  inv_receiver <$> new_calls world0 (out_world r) = [8] /\
  7 ∉ inv_receiver <$> new_calls world0 (out_world r).
Proof.
  assert (Hne : (7 : nat) <> 8) by discriminate.
  split; [exact Hne|].
  destruct (register_last_write_wins MAdviseAckedQuery fresh 7 8 acked1
              (stale MAdviseAckedQuery tt) world0)
    as (_ & _ & _ & _ & _ & Herr & Hcalls & Hnot).
  exact (conj Herr (conj Hcalls (Hnot Hne))).
Defined.

(** Unregistering ["db1"] on a node that never registered it changes
    nothing, and a call for ["db1"] after unregistering it from the node
    fails with the routing error. *)
Lemma unregister_then_unknown_witness :
  serviceMap fresh !! "db1" = None /\
  unregister fresh "db1" = fresh /\
  dispatch MAdviseAckedQuery (unregister node "db1") acked1
    (stale MAdviseAckedQuery tt) world0
    = (world0, stale MAdviseAckedQuery tt, Some ErrUnknownMuxRequest).
Proof.
  assert (Hnone : serviceMap fresh !! "db1" = None) by reflexivity.
  destruct (unregister_then_unknown MAdviseAckedQuery node acked1
              (stale MAdviseAckedQuery tt) world0) as [Hfail Hnoop].
  exact (conj Hnone (conj (Hnoop fresh "db1" Hnone) Hfail)).
Defined.

(** On the node, the response to [AdviseAckedQuery] for ["db1"] carries
    envelope 42 and database id ["db1"] in place of the stale header. *)
Lemma response_header_copied_witness :
  serviceMap node !! req_DatabaseID acked1 = Some 7 /\
  let r := dispatch MAdviseAckedQuery node acked1
             (stale MAdviseAckedQuery tt) world0 in
  resp_Envelope (out_resp r) = 42 /\
  resp_DatabaseID (out_resp r) = "db1".
Proof.
  assert (Hsome : serviceMap node !! req_DatabaseID acked1 = Some 7)
    by reflexivity.
  split; [exact Hsome|].
  exact (response_header_copied MAdviseAckedQuery node 7 acked1
           (stale MAdviseAckedQuery tt) world0 Hsome).
Defined.


(** The rejected acknowledgment of query 1 still comes back with envelope
    42 and database id ["db1"], which the instance call already saw. *)
Lemma header_written_before_call_witness :
  serviceMap node !! req_DatabaseID acked1 = Some 7 /\
  (instance_result MAdviseAckedQuery 7 acked1
     (stale MAdviseAckedQuery tt) world0).2 = Some ErrOutOfOrder /\
  let r := dispatch MAdviseAckedQuery node acked1
             (stale MAdviseAckedQuery tt) world0 in
  new_calls world0 (out_world r)
    = [mkInvocation 7 MAdviseAckedQuery 42 "db1"] /\
  out_err r = Some ErrOutOfOrder /\
  resp_Envelope (out_resp r) = 42 /\
  resp_DatabaseID (out_resp r) = "db1".
Proof.
  assert (Hsome : serviceMap node !! req_DatabaseID acked1 = Some 7)
    by reflexivity.
  assert (Herr : (instance_result MAdviseAckedQuery 7 acked1
                    (stale MAdviseAckedQuery tt) world0).2
                 = Some ErrOutOfOrder) by reflexivity.
  destruct (header_written_before_call MAdviseAckedQuery node 7 acked1
              (stale MAdviseAckedQuery tt) world0 Hsome)
    as (Hcalls & _ & _ & _ & Hfail).
  exact (conj Hsome (conj Herr (conj Hcalls (Hfail ErrOutOfOrder Herr)))).
Defined.

(** On the node, query 1 advised as responsed and then as acked ends up
    [Acked] and is fetched; acked first, it is rejected. *)
Lemma query_lifecycle_one_directional_witness :
  serviceMap node !! "db1" = Some 7 /\
  table_of (heap world0) 7 !! 1 = Some Submitted /\
  table_of (heap world0) 7 !! adv_query (req_Inner acked1)
    <> Some Responsed /\
  is_Some (out_err (AdviseAckedQuery node acked1
                      (stale MAdviseAckedQuery tt) world0)) /\
  let r1 := AdviseResponsedQuery node responsed1
              (stale MAdviseResponsedQuery tt) world0 in
  let r2 := AdviseAckedQuery node acked1
              (stale MAdviseAckedQuery tt) (out_world r1) in
  let r3 := FetchAckedQuery node fetch_acked_req
              (stale MFetchAckedQuery []) (out_world r2) in
  out_err r1 = None /\ out_err r2 = None /\
  table_of (heap (out_world r2)) 7 !! 1 = Some Acked /\
  out_err r3 = None /\ 1 ∈ resp_Inner (out_resp r3).
Proof.
  assert (Hsome : serviceMap node !! "db1" = Some 7) by reflexivity.
  assert (Hsub : table_of (heap world0) 7 !! 1 = Some Submitted)
    by reflexivity.
  assert (Hnot : table_of (heap world0) 7 !! adv_query (req_Inner acked1)
                 <> Some Responsed) by discriminate.
  destruct query_lifecycle_one_directional as (_ & _ & _ & Hrej & Hok).
  exact (conj Hsome (conj Hsub (conj Hnot
           (conj (proj1 (Hrej node 7 acked1 (stale MAdviseAckedQuery tt)
                           world0 Hsome Hnot))
                 (Hok node 7 "db1" 1 42 42 42
                    (stale MAdviseResponsedQuery tt)
                    (stale MAdviseAckedQuery tt)
                    (stale MFetchAckedQuery []) world0 Hsome Hsub))))).
Defined.
(** The whole outcome of the early acknowledgment: one call on instance 7,
    the chain's memory as before, the header filled in, the instance's
    error returned. *)
Example early_ack_on_the_node :
  dispatch MAdviseAckedQuery node acked1 (stale MAdviseAckedQuery tt) world0
    = ({| heap := heap world0;
          calls := [mkInvocation 7 MAdviseAckedQuery 42 "db1"] |},
       mkMuxResp 42 "db1" tt,
       Some ErrOutOfOrder).
Proof. vm_compute. reflexivity. Qed.

(** A query taken through its whole life, with an early acknowledgment and
    a late response advice that are both refused. *)
Example whole_life_of_a_query :
  run {[ 1 := Submitted ]}
      [CallAdviseAckedQuery (mkAdvice 1 true);
       CallAdviseResponsedQuery (mkAdvice 1 true);
       CallAdviseAckedQuery (mkAdvice 1 true);
       CallAdviseNewBlock [1];
       CallAdviseResponsedQuery (mkAdvice 1 true)] !! 1
    = Some Committed.
Proof. vm_compute. reflexivity. Qed.

(** A nil [*ProjectMiscConfig] is not enabled, and asking does not fault. *)
Example nil_config_not_enabled :
  model.ProjectMiscConfig.IsEnabled None = Some false.
Proof. reflexivity. Qed.
End OnTheNode.

(** * The private key file *)

Section KeyFileProperties.
Import kms.
Context `{Crypto}.

Lemma ReadFile_ok fs path content :
  path ∉ unreadable fs -> path ∉ directories fs ->
  files fs !! path = Some content ->
  ReadFile fs path = (content, None).
Proof.
  intros Hread Hdir Hfile. unfold ReadFile.
  rewrite !decide_False by done. by rewrite Hfile.
Qed.

Lemma ReadFile_error_is_PathError fs path e :
  (ReadFile fs path).2 = Some e -> is_PathError e = true.
Proof.
  unfold ReadFile. repeat case_decide; try (by intros [= <-]).
  destruct (files fs !! path); simpl; [done | by intros [= <-]].
Qed.

Lemma ReadFile_unreadable fs path :
  path ∈ unreadable fs ->
  ReadFile fs path = ([], Some (PathError "open" path)).
Proof. intros Hin. unfold ReadFile. by rewrite decide_True. Qed.

(** What [WriteFile] does, case by case. *)
Lemma WriteFile_cases fs path data :
  let r := WriteFile fs path data in
  (((path ∈ unwritable fs) \/ (path ∈ directories fs)) /\
   r = (fs, Some (PathError "open" path))) \/
  ((path ∉ unwritable fs) /\ (path ∉ directories fs) /\
   ((exists n, n < length data /\
       r = (set_file fs path (take n data),
            Some (PathError "write" path))) \/
    r = (set_file fs path data, None))).
Proof.
  intros r. subst r. unfold WriteFile.
  case_decide; [left; by auto|].
  case_decide; [left; by auto|].
  right. split_and!; try done.
  destruct (room fs) as [n|]; [|by right].
  destruct (n <? length data) eqn:Hroom; [|by right].
  left. exists n. split; [by apply Nat.ltb_lt | done].
Qed.

(** What [LoadPrivateKey] returns, case by case. *)
Lemma LoadPrivateKey_cases fs path masterKey :
  let r := LoadPrivateKey fs path masterKey in
  (exists e, (ReadFile fs path).2 = Some e /\ r = (None, Some e)) \/
  (exists content,
     ReadFile fs path = (content, None) /\
     ((exists e, (DecryptWithPassword content masterKey).2 = Some e /\
                 r = (None, Some e)) \/
      (exists decData,
         DecryptWithPassword content masterKey = (decData, None) /\
         ((length decData <> HashBSize + PrivKeyBytesLen /\
           r = (None, Some ErrNotKeyFile)) \/
          (length decData = HashBSize + PrivKeyBytesLen /\
           DoubleHashB (drop HashBSize decData) <> take HashBSize decData /\
           r = (None, Some ErrHashNotMatch)) \/
          (length decData = HashBSize + PrivKeyBytesLen /\
           DoubleHashB (drop HashBSize decData) = take HashBSize decData /\
           r = (Some (PrivKeyFromBytes (drop HashBSize decData)).1,
                None)))))).
Proof.
  intros r. subst r. unfold LoadPrivateKey.
  destruct (ReadFile fs path) as [content [e|]]; simpl; [left; by eauto|].
  right. exists content. split; [done|].
  destruct (DecryptWithPassword content masterKey) as [decData [e|]];
    simpl; [left; by eauto|].
  right. exists decData. split; [done|].
  destruct (length decData =? HashBSize + PrivKeyBytesLen) eqn:Hlen; simpl.
  - apply Nat.eqb_eq in Hlen. right.
    case_bool_decide as Hhash; simpl; [right | left]; done.
  - apply Nat.eqb_neq in Hlen. left. done.
Qed.

(** X1. [LoadPrivateKey] returns a key exactly when it returns no error,
    and a key it returns has passed both checks: the file decrypted to
    [HashBSize + PrivKeyBytesLen] bytes whose first [HashBSize] bytes are
    the double hash of the rest, and the key is parsed from that rest. *)
Theorem LoadPrivateKey_sound fs path masterKey :
  let r := LoadPrivateKey fs path masterKey in
  (r.2 = None <-> is_Some r.1) /\
  (forall key, r.1 = Some key ->
     exists content decData,
       ReadFile fs path = (content, None) /\
       DecryptWithPassword content masterKey = (decData, None) /\
       length decData = HashBSize + PrivKeyBytesLen /\
       DoubleHashB (drop HashBSize decData) = take HashBSize decData /\
       key = (PrivKeyFromBytes (drop HashBSize decData)).1).
Proof.
  intros r.
  destruct (LoadPrivateKey_cases fs path masterKey)
    as [(e & _ & Hr) | (content & Hread &
         [(e & _ & Hr) | (decData & Hdec &
           [(Hlen & Hr) | [(Hlen & Hhash & Hr) | (Hlen & Hhash & Hr)]])])];
    fold r in Hr; rewrite Hr; simpl;
    (split; [split; [try done; by eauto | try done; by intros [? [=]]]|]);
    intros key [= <-].
  by exists content, decData.
Qed.

(** X2. A key file that decrypts to the wrong number of bytes is refused
    with [ErrNotKeyFile], and one of the right size whose hash head does
    not match its key bytes with [ErrHashNotMatch]; in both cases no key is
    returned. The size is checked first. *)
Theorem LoadPrivateKey_rejects fs path masterKey content decData :
  ReadFile fs path = (content, None) ->
  DecryptWithPassword content masterKey = (decData, None) ->
  (length decData <> HashBSize + PrivKeyBytesLen ->
     LoadPrivateKey fs path masterKey = (None, Some ErrNotKeyFile)) /\
  (length decData = HashBSize + PrivKeyBytesLen ->
   DoubleHashB (drop HashBSize decData) <> take HashBSize decData ->
     LoadPrivateKey fs path masterKey = (None, Some ErrHashNotMatch)).
Proof.
  intros Hread Hdec. unfold LoadPrivateKey. rewrite Hread, Hdec. split.
  - intros Hlen. apply Nat.eqb_neq in Hlen. by rewrite Hlen.
  - intros Hlen Hhash. apply Nat.eqb_eq in Hlen. rewrite Hlen; simpl.
    by rewrite bool_decide_eq_false_2.
Qed.

Lemma SavePrivateKey_touches_one_file fs rnd path key masterKey :
  let r := SavePrivateKey fs rnd path key masterKey in
  (forall other, other <> path ->
     files r.1.1 !! other = files fs !! other) /\
  directories r.1.1 = directories fs /\
  unreadable r.1.1 = unreadable fs /\
  unwritable r.1.1 = unwritable fs /\
  room r.1.1 = room fs.
Proof.
  intros r. subst r. unfold SavePrivateKey.
  destruct (EncryptWithPassword _ _ _) as [[encKey [e|]] rnd']; simpl;
    [done|].
  destruct (WriteFile_cases fs path encKey)
    as [[_ ->] | (_ & _ & [(n & _ & ->) | ->])]; simpl; split_and!;
    try done; intros other Hne; by rewrite lookup_insert_ne.
Qed.


Lemma SavePrivateKey_then_Load `{!CryptoLaws} fs rnd path key masterKey
    fs' rnd' :
  path ∉ unreadable fs ->
  SavePrivateKey fs rnd path key masterKey = (fs', rnd', None) ->
  LoadPrivateKey fs' path masterKey = (Some key, None).
Proof.
  intros Hread. unfold SavePrivateKey.
  destruct (EncryptWithPassword _ _ _) as [[encKey [e|]] rnd1] eqn:Henc;
    simpl; [done|].
  destruct (WriteFile_cases fs path encKey)
    as [[_ ->] | (_ & Hfile & [(n & _ & ->) | ->])]; simpl; try done.
  intros [= <- <-].
  unfold LoadPrivateKey.
  erewrite ReadFile_ok; [| done | done | apply lookup_insert_eq].
  rewrite (decrypt_encrypt _ _ _ _ _ Henc).
  rewrite length_app, DoubleHashB_length, Serialize_length, Nat.eqb_refl.
  simpl.
  rewrite drop_app_length' by (symmetry; apply DoubleHashB_length).
  rewrite take_app_length' by (symmetry; apply DoubleHashB_length).
  rewrite bool_decide_eq_true_2 by done. simpl.
  by rewrite PrivKeyFromBytes_Serialize.
Qed.

(** X4. Round trip: after [SavePrivateKey] succeeded, [LoadPrivateKey] of
    the same readable path under the same master key returns the saved
    key. *)
Theorem save_then_load `{!CryptoLaws} fs rnd path key masterKey fs' rnd' :
  path ∉ unreadable fs ->
  SavePrivateKey fs rnd path key masterKey = (fs', rnd', None) ->
  LoadPrivateKey fs' path masterKey = (Some key, None).
Proof. apply SavePrivateKey_then_Load. Qed.

Lemma LoadPrivateKey_key_iff fs path masterKey :
  (LoadPrivateKey fs path masterKey).2 = None
  <-> is_Some (LoadPrivateKey fs path masterKey).1.
Proof.
  destruct (LoadPrivateKey_cases fs path masterKey)
    as [(e & _ & Hr) | (content & Hread &
         [(e & _ & Hr) | (decData & Hdec &
           [(Hlen & Hr) | [(Hlen & Hhash & Hr) | (Hlen & Hhash & Hr)]])])];
    rewrite Hr; simpl; split; try done; try (by intros [? [=]]); by eauto.
Qed.

Lemma InitLocalKeyPair_loaded (n : Node) path masterKey key :
  LoadPrivateKey (node_fs n) path masterKey = (Some key, None) ->
  InitLocalKeyPair n path masterKey
    = Some (mkNode (node_fs n) (node_rnd n)
              (SetLocalKeyPair key (PubKey key)
                 (InitLocalKeyStore (node_store n))), None).
Proof. intros Hload. unfold InitLocalKeyPair. by rewrite Hload. Qed.

(** X5. [InitLocalKeyPair] never dereferences a nil key, and unless
    loading failed with a path error (or [os.ErrNotExist]) it writes no
    file and draws no randomness: a key that loads is put in the key store
    with its own public key, and any other load error ([ErrNotKeyFile],
    [ErrHashNotMatch], a decryption error) is returned as it is with no
    key pair set. *)
Theorem InitLocalKeyPair_keeps_file (n : Node) path masterKey :
  is_Some (InitLocalKeyPair n path masterKey) /\
  (forall key,
     LoadPrivateKey (node_fs n) path masterKey = (Some key, None) ->
     InitLocalKeyPair n path masterKey
       = Some (mkNode (node_fs n) (node_rnd n)
                 (SetLocalKeyPair key (PubKey key)
                    (InitLocalKeyStore (node_store n))), None)) /\
  (forall e,
     (LoadPrivateKey (node_fs n) path masterKey).2 = Some e ->
     is_PathError e = false -> e <> OsErrNotExist ->
     InitLocalKeyPair n path masterKey
       = Some (mkNode (node_fs n) (node_rnd n)
                 (InitLocalKeyStore (node_store n)), Some e)).
Proof.
  pose proof (LoadPrivateKey_key_iff (node_fs n) path masterKey) as Hinv.
  split; [|split; [apply InitLocalKeyPair_loaded|]].
  all: unfold InitLocalKeyPair.
  - destruct (LoadPrivateKey (node_fs n) path masterKey) as [key err];
      simpl in *.
    destruct err as [e|].
    + case_bool_decide; [by eexists|].
      destruct (is_PathError e || bool_decide (e = OsErrNotExist));
        [|by eexists].
      destruct (GenSecp256k1KeyPair _) as [[[priv pub] [e1|]] rnd1];
        [by eexists|].
      destruct (SavePrivateKey _ _ _ _ _) as [[fs2 rnd2] [e2|]];
        by eexists.
    + destruct (proj1 Hinv eq_refl) as [k ->]. by eexists.
  - destruct (LoadPrivateKey (node_fs n) path masterKey) as [key err];
      simpl in *.
    intros e -> Hpath Hne.
    case_bool_decide as Hkey; [done|].
    rewrite Hpath. simpl. by rewrite bool_decide_eq_false_2.
Qed.

(** X6. When reading the key file fails and generating and saving a pair
    succeed, [InitLocalKeyPair] puts the generated pair in the key store
    and changes no other file. If the path may be opened for reading (the
    file was missing), [LoadPrivateKey], and so a second
    [InitLocalKeyPair], gets the same private key back from the file
    written. If it may not (a key file that is unreadable but writable was
    overwritten), loading the written file fails with a path error
    again. *)
Theorem InitLocalKeyPair_generates `{!CryptoLaws} (n n' : Node) path
    masterKey priv pub rnd1 :
  (ReadFile (node_fs n) path).2 <> None ->
  GenSecp256k1KeyPair (node_rnd n) = (priv, pub, None, rnd1) ->
  InitLocalKeyPair n path masterKey = Some (n', None) ->
  node_store n'
    = SetLocalKeyPair priv pub (InitLocalKeyStore (node_store n)) /\
  (forall other, other <> path ->
     files (node_fs n') !! other = files (node_fs n) !! other) /\
  (path ∉ unreadable (node_fs n) ->
     LoadPrivateKey (node_fs n') path masterKey = (Some priv, None) /\
     InitLocalKeyPair n' path masterKey
       = Some (mkNode (node_fs n') (node_rnd n')
                 (SetLocalKeyPair priv (PubKey priv)
                    (InitLocalKeyStore (node_store n'))), None)) /\
  (path ∈ unreadable (node_fs n) ->
     LoadPrivateKey (node_fs n') path masterKey
       = (None, Some (PathError "open" path))).
Proof.
  intros Hmissing Hgen.
  destruct ((ReadFile (node_fs n) path).2) as [e|] eqn:Herr; [|done].
  pose proof (ReadFile_error_is_PathError _ _ _ Herr) as Hpath.
  assert (Hload : LoadPrivateKey (node_fs n) path masterKey
                  = (None, Some e)).
  { unfold LoadPrivateKey.
    destruct (ReadFile (node_fs n) path) as [content err]; simpl in *.
    by subst err. }
  unfold InitLocalKeyPair at 1. rewrite Hload.
  assert (Hnot : e <> ErrNotKeyFile) by (by intros ->).
  rewrite bool_decide_eq_false_2 by done. rewrite Hpath; simpl.
  rewrite Hgen.
  pose proof (SavePrivateKey_touches_one_file (node_fs n) rnd1 path priv
                masterKey)
    as (Hframe & _ & Hunread & _ & _).
  destruct (SavePrivateKey (node_fs n) rnd1 path priv masterKey)
    as [[fs2 rnd2] [e2|]] eqn:Hsave; [done|].
  intros [= <-]; simpl in *.
  split_and!; try done.
  - intros Hread.
    assert (Hreload : LoadPrivateKey fs2 path masterKey
                      = (Some priv, None))
      by (by eapply SavePrivateKey_then_Load).
    split; [done|]. by apply InitLocalKeyPair_loaded.
  - intros Hlocked. unfold LoadPrivateKey.
    rewrite ReadFile_unreadable; [done|]. by rewrite Hunread.
Qed.
End KeyFileProperties.

(** * The hash-stable encoding of a token receipt *)

Section MarshalProperties.
Import types.
Context `{TokenFields}.

Open Scope Z_scope.

Lemma int_add_small a b :
  - 2 ^ 63 <= a + b < 2 ^ 63 -> int_add a b = a + b.
Proof.
  intros Hrange. unfold int_add, int_wrap.
  rewrite Z.mod_small by lia. lia.
Qed.

(** Replace the wrapping sums by plain ones, innermost first. *)
Ltac plain_sums :=
  repeat match goal with
  | |- context [int_add ?a ?b] =>
      lazymatch a with
      | context [int_add _ _] => fail
      | _ =>
          lazymatch b with
          | context [int_add _ _] => fail
          | _ => rewrite (int_add_small a b) by lia
          end
      end
  end.

(** Collect what [hsp] says about the length of every appended piece. *)
Ltac append_lengths :=
  repeat match goal with
  | |- context [AppendBytes ?a ?b] =>
      lazymatch goal with
      | _ : Z.of_nat (length (AppendBytes a b)) <= _ |- _ => fail
      | _ => pose proof (AppendBytes_length a b)
      end
  | |- context [AppendNil ?a] =>
      lazymatch goal with
      | _ : Z.of_nat (length (AppendNil a)) = _ |- _ => fail
      | _ => pose proof (AppendNil_length a)
      end
  end.

Lemma TokenReceiveHeader_Msgsize_plain z :
  header_sizes_fit z -> TokenReceiveHeader_Msgsize z = header_sum z.
Proof.
  intros (? & ? & ? & ? & ? & Hsum). unfold header_sum in *.
  unfold TokenReceiveHeader_Msgsize. plain_sums. lia.
Qed.

Lemma TokenReceiveHeader_MarshalHash_length `{!FieldLaws} z o :
  TokenReceiveHeader_MarshalHash z = (o, None) ->
  Z.of_nat (length o) <= header_sum z.
Proof.
  unfold TokenReceiveHeader_MarshalHash, append_marshalled, header_sum.
  rewrite Require_nil.
  destruct (MarshalHash (hdr_Type z)) as [o1 [?|]] eqn:Hm1; [done|].
  destruct (MarshalHash (hdr_Amount z)) as [o2 [?|]] eqn:Hm2; [done|].
  destruct (MarshalHash (hdr_Nonce z)) as [o3 [?|]] eqn:Hm3; [done|].
  destruct (MarshalHash (hdr_Observer z)) as [o4 [?|]] eqn:Hm4; [done|].
  destruct (MarshalHash (hdr_Receiver z)) as [o5 [?|]] eqn:Hm5; [done|].
  apply Msgsize_bound in Hm1, Hm2, Hm3, Hm4, Hm5.
  intros [= <-]. append_lengths.
  rewrite ?length_app in *. simpl length in *. lia.
Qed.

(** X7. As long as no field reports a negative size and the sum stays
    below [2 ^ 63], [Msgsize] of a [TokenReceiveHeader] is 37 plus the
    sizes of its five fields, and it is an upper bound on the length of
    what [MarshalHash] returns on success. *)
Theorem TokenReceiveHeader_Msgsize_bound `{!FieldLaws} z :
  header_sizes_fit z ->
  TokenReceiveHeader_Msgsize z = header_sum z /\
  (forall o, TokenReceiveHeader_MarshalHash z = (o, None) ->
     Z.of_nat (length o) <= TokenReceiveHeader_Msgsize z).
Proof.
  intros Hfit. rewrite TokenReceiveHeader_Msgsize_plain by done.
  split; [done|]. intros o. apply TokenReceiveHeader_MarshalHash_length.
Qed.

(** X8. The same for a [TokenReceive], nil or not its [Signee] and
    [Signature]: [Msgsize] is 48 plus the sizes of the four fields (a nil
    pointer counting [NilSize]), and bounds the length of what
    [MarshalHash] returns on success. *)
Theorem TokenReceive_Msgsize_bound `{!FieldLaws} z :
  receive_sizes_fit z ->
  TokenReceive_Msgsize z = receive_sum z /\
  (forall o, TokenReceive_MarshalHash z = (o, None) ->
     Z.of_nat (length o) <= TokenReceive_Msgsize z).
Proof.
  intros (Hhdr & Hsignee & Hsig & Hhash & Hsum).
  assert (Hplain : TokenReceive_Msgsize z = receive_sum z).
  { unfold TokenReceive_Msgsize.
    rewrite TokenReceiveHeader_Msgsize_plain by done.
    destruct Hhdr as (? & ? & ? & ? & ? & ?).
    unfold receive_sum, header_sum in *. plain_sums. lia. }
  split; [done|]. intros o. rewrite Hplain. unfold receive_sum.
  unfold TokenReceive_MarshalHash, append_pointer, append_marshalled.
  rewrite Require_nil.
  pose proof NilSize_nonneg.
  destruct (TokenReceiveHeader_MarshalHash (tr_TokenReceiveHeader z))
    as [oh [?|]] eqn:Hh;
    [by destruct (tr_Signee z) as [x|], (tr_Signature z) as [y|];
        try destruct (MarshalHash x) as [? [?|]];
        try destruct (MarshalHash y) as [? [?|]]|].
  apply TokenReceiveHeader_MarshalHash_length in Hh.
  destruct (MarshalHash (tr_HeaderHash z)) as [oq [?|]] eqn:Hq;
    [by destruct (tr_Signee z) as [x|], (tr_Signature z) as [y|];
        try destruct (MarshalHash x) as [? [?|]];
        try destruct (MarshalHash y) as [? [?|]]|].
  apply Msgsize_bound in Hq.
  destruct (tr_Signee z) as [x|], (tr_Signature z) as [y|]; simpl;
    try (destruct (MarshalHash x) as [ox [?|]] eqn:Hx; [done|];
         apply Msgsize_bound in Hx);
    try (destruct (MarshalHash y) as [oy [?|]] eqn:Hy; [done|];
         apply Msgsize_bound in Hy);
    intros [= <-]; append_lengths;
    rewrite ?length_app in *; simpl length in *; lia.
Qed.

(** X9. [MarshalHash] of a [TokenReceive] fails exactly when marshalling
    one of its parts fails, with the error of the first part that fails in
    the order Signee, Signature, the five header fields, HeaderHash, and
    then returns the nil slice (so the result is an error-free encoding
    or a nil slice with an error); a nil [Signee] or [Signature] is no
    error. *)
Theorem TokenReceive_MarshalHash_first_error z :
  let hdr := tr_TokenReceiveHeader z in
  (TokenReceive_MarshalHash z).2
    = first_error [pointer_error (tr_Signee z);
                   pointer_error (tr_Signature z);
                   (MarshalHash (hdr_Type hdr)).2;
                   (MarshalHash (hdr_Amount hdr)).2;
                   (MarshalHash (hdr_Nonce hdr)).2;
                   (MarshalHash (hdr_Observer hdr)).2;
                   (MarshalHash (hdr_Receiver hdr)).2;
                   (MarshalHash (tr_HeaderHash z)).2] /\
  ((TokenReceive_MarshalHash z).2 = None \/
   (TokenReceive_MarshalHash z).1 = []).
Proof.
  intros hdr. subst hdr.
  unfold TokenReceive_MarshalHash, TokenReceiveHeader_MarshalHash,
    append_pointer, append_marshalled, pointer_error, first_error.
  destruct (tr_Signee z) as [x|], (tr_Signature z) as [y|]; simpl;
    try (destruct (MarshalHash x) as [? [?|]]; simpl; [by auto|]);
    try (destruct (MarshalHash y) as [? [?|]]; simpl; [by auto|]);
    (destruct (MarshalHash (hdr_Type _)) as [? [?|]]; simpl; [by auto|]);
    (destruct (MarshalHash (hdr_Amount _)) as [? [?|]]; simpl; [by auto|]);
    (destruct (MarshalHash (hdr_Nonce _)) as [? [?|]]; simpl; [by auto|]);
    (destruct (MarshalHash (hdr_Observer _)) as [? [?|]]; simpl;
       [by auto|]);
    (destruct (MarshalHash (hdr_Receiver _)) as [? [?|]]; simpl;
       [by auto|]);
    (destruct (MarshalHash (tr_HeaderHash _)) as [? [?|]]; simpl; by auto).
Qed.
End MarshalProperties.

(** * The stored project configs *)

Section ConfigProperties.
Import config.
Context `{Store}.

(** X10. [String] names the four config types differently and calls
    every other value ["Unknown"]: it is ["Unknown"] exactly outside
    0..3, and two types with the same name that is not ["Unknown"] are the
    same type. *)
Theorem ProjectConfigType_String_faithful (c c' : ProjectConfigType) :
  (String c = "Unknown" <-> ~ (0 <= c <= 3)%Z) /\
  (String c = String c' -> String c <> "Unknown" -> c = c').
Proof.
  unfold String, ProjectConfigMisc, ProjectConfigOAuth, ProjectConfigTable,
    ProjectConfigGroup.
  split.
  - repeat case_decide; split; try done; try lia.
  - repeat case_decide; try done; intros; lia.
Qed.

Lemma collect_tables_app (rows : list ProjectConfig) (acc : list string) :
  foldl collect_table acc rows = acc ++ (Key <$> List.filter live_table rows).
Proof.
  revert acc. induction rows as [|p rows IH]; intros acc; simpl.
  - by rewrite app_nil_r.
  - rewrite IH. unfold collect_table, live_table.
    destruct (Unmarshal_Table (RawValue p)).1 as [c|]; simpl; [|done].
    destruct (IsDeleted c); simpl; [done|].
    by rewrite <- app_assoc.
Qed.

(** X11. [GetProjectTablesName] returns, in the order of the rows the
    query gave, the keys of exactly those rows after whose decoding the
    pointer is not nil and the table config it points to is not deleted.
    The decoding error is dropped: a row is skipped only when decoding
    leaves the pointer nil, and a row whose decoding fails after the
    config was allocated is listed all the same. When the query fails it
    returns no names and the query's error wrapped. *)
Theorem GetProjectTablesName_live_tables (db : DbMap) :
  let q := Select db SelectByType [IntArg ProjectConfigTable] in
  GetProjectTablesName db =
    match q.2 with
    | None => (Key <$> List.filter live_table q.1, None)
    | Some e => ([], Some (Wrapped e "get project table config failed"))
    end /\
  (q.2 = None ->
   forall name,
     name ∈ (GetProjectTablesName db).1 <->
     exists p c, p ∈ q.1 /\ Key p = name /\
                 (Unmarshal_Table (RawValue p)).1 = Some c /\
                 IsDeleted c = false).
Proof.
  intros q.
  assert (Heq : GetProjectTablesName db =
            match q.2 with
            | None => (Key <$> List.filter live_table q.1, None)
            | Some e =>
                ([], Some (Wrapped e "get project table config failed"))
            end).
  { subst q. unfold GetProjectTablesName.
    destruct (Select db SelectByType _) as [rows [e|]]; simpl; [done|].
    by rewrite collect_tables_app. }
  split; [done|].
  intros Hok name. rewrite Heq, Hok. simpl.
  rewrite list_elem_of_fmap. split.
  - intros (p & -> & Hin).
    apply list_elem_of_In, filter_In in Hin as [Hin Hlive].
    unfold live_table in Hlive.
    destruct (Unmarshal_Table (RawValue p)).1 as [c|] eqn:Hdec; [|done].
    exists p, c. split_and!; try done; [by apply list_elem_of_In|].
    by destruct (IsDeleted c).
  - intros (p & c & Hin & <- & Hdec & Hlive).
    exists p. split; [done|].
    apply list_elem_of_In, filter_In. split; [by apply list_elem_of_In|].
    unfold live_table. by rewrite Hdec, Hlive.
Qed.

(** X12. On a row the query found, [GetProjectMiscConfig],
    [GetProjectOAuthConfig] and [GetProjectTableConfig] store the decoded
    config in the row's [Value] exactly when decoding succeeded, and
    return a decoding error wrapped. [GetProjectGroupConfig] does the
    opposite: it stores the decoded config in [Value] only when decoding
    failed, returning that error as it is, and after a successful decoding
    it returns the row with the [Value] it had. *)
Theorem getters_on_a_found_row (db : DbMap) (p : ProjectConfig) :
  (SelectOne db SelectOneByType [IntArg ProjectConfigMisc]
     = (Some p, None) ->
   let d := Unmarshal_Misc (RawValue p) in
   GetProjectMiscConfig db =
     Some (Some (match d.2 with
                 | None => set_Value p (MiscValue d.1)
                 | Some _ => p
                 end), d.1,
           Wrapf d.2 "resolve project misc config failed")) /\
  (forall provider,
   SelectOne db SelectOneByTypeAndKey
     [IntArg ProjectConfigOAuth; StringArg provider] = (Some p, None) ->
   let d := Unmarshal_OAuth (RawValue p) in
   GetProjectOAuthConfig db provider =
     Some (Some (match d.2 with
                 | None => set_Value p (OAuthValue d.1)
                 | Some _ => p
                 end), d.1,
           Wrapf d.2 "resolve project oauth config data failed")) /\
  (forall tableName,
   SelectOne db SelectOneByTypeAndKey
     [IntArg ProjectConfigTable; StringArg tableName] = (Some p, None) ->
   let d := Unmarshal_Table (RawValue p) in
   GetProjectTableConfig db tableName =
     Some (Some (match d.2 with
                 | None => set_Value p (TableValue d.1)
                 | Some _ => p
                 end), d.1,
           Wrapf d.2 "resolve project table config data failed")) /\
  (SelectOne db SelectOneByType [IntArg ProjectConfigGroup]
     = (Some p, None) ->
   let d := Unmarshal_Group (RawValue p) in
   GetProjectGroupConfig db =
     Some (Some (match d.2 with
                 | None => p
                 | Some _ => set_Value p (GroupValue d.1)
                 end), d.1, d.2)).
Proof.
  split_and!.
  - intros Hsel d. subst d. unfold GetProjectMiscConfig. rewrite Hsel.
    by destruct (Unmarshal_Misc _) as [pc [e|]].
  - intros provider Hsel d. subst d. unfold GetProjectOAuthConfig.
    rewrite Hsel. by destruct (Unmarshal_OAuth _) as [pc [e|]].
  - intros tableName Hsel d. subst d. unfold GetProjectTableConfig.
    rewrite Hsel. by destruct (Unmarshal_Table _) as [pc [e|]].
  - intros Hsel d. subst d. unfold GetProjectGroupConfig. rewrite Hsel.
    by destruct (Unmarshal_Group _) as [pc [e|]].
Qed.

(** X13. [AddProjectConfig] is [AddRawProjectConfig] of a fresh record
    with the given type, key and value: both leave the same database and
    return the same error, and on success the same stored record. When
    encoding the value fails, neither touches the database. *)
Theorem AddProjectConfig_as_AddRaw (db : DbMap) (now : Z)
    (configType : ProjectConfigType) (configKey : string)
    (value : ConfigValue) :
  let fresh := {| ID := 0; Type_ := configType; Key := configKey;
                  RawValue := []; Created := 0; LastUpdated := 0;
                  Value := value |} in
  let r := AddProjectConfig db now configType configKey value in
  let r' := AddRawProjectConfig db now fresh in
  r.1.1 = r'.1.1 /\ r.2 = r'.2 /\
  (r.2 = None -> r.1.2 = r'.1.2) /\
  ((Marshal value).2 <> None -> r.1.1 = db).
Proof.
  intros fresh r r'. subst fresh r r'.
  unfold AddProjectConfig, AddRawProjectConfig; simpl.
  destruct (Marshal value) as [raw [e|]]; simpl; [done|].
  unfold set_Created, set_RawValue; simpl.
  destruct (Insert db _) as [[db' p'] [e|]]; simpl; done.
Qed.
End ConfigProperties.

(** * The compatibility test script *)

(** X14. The script goes on only for the test cases [client], [bp] and
    [miner]; it then takes exactly one program from the previous release,
    the one the test case names, and the three programs are always [cql],
    [cqld] and [cql-minerd]. *)
Theorem choose_one_old_program (test_case : string) :
  (is_Some (compat_test.choose test_case)
   <-> test_case ∈ ["client"; "bp"; "miner"]) /\
  (forall b, compat_test.choose test_case = Some b ->
     compat_test.old_programs b
       = [if decide (test_case = "client") then "cql"
          else if decide (test_case = "bp") then "cqld"
          else "cql-minerd"] /\
     snd <$> [compat_test.CLIENTBIN b; compat_test.BPBIN b;
              compat_test.MINERBIN b]
       = ["cql"; "cqld"; "cql-minerd"]).
Proof.
  unfold compat_test.choose. split.
  - rewrite !elem_of_cons, elem_of_nil.
    repeat case_decide; subst; split; intros Hx;
      try (by eexists); try (by destruct Hx); tauto.
  - intros b. repeat case_decide; intros [= <-]; done.
Qed.

(** * More on the router *)

Section MoreMuxProperties.
Context `{ChainCode}.

Implicit Types (m : MuxMethod) (s : MuxService) (w : World).
Implicit Types (id : DatabaseID) (v : ChainRPCService).

(** X15. Chains are routed independently: registering or unregistering
    one chain id changes nothing for a request that carries another id,
    whichever routing method it calls. *)
Theorem other_chains_unaffected m s id v (req : MuxReq (InnerReq m))
    (resp : MuxResp (InnerResp m)) w :
  req_DatabaseID req <> id ->
  dispatch m (register s id v) req resp w = dispatch m s req resp w /\
  dispatch m (unregister s id) req resp w = dispatch m s req resp w.
Proof.
  intros Hne. rewrite !dispatch_body. unfold register, unregister; simpl.
  rewrite lookup_insert_ne by done. by rewrite lookup_delete_ne.
Qed.

(** X16. [unregister] undoes [register]: on a registry that had no binding
    for the id the registry is back as it was, and in general it is what
    [unregister] alone gives; [register] after [unregister] is [register]
    alone. A new mux service routes nothing. *)
Theorem register_unregister_round_trip s id v :
  unregister (register s id v) id = unregister s id /\
  register (unregister s id) id v = register s id v /\
  (serviceMap s !! id = None -> unregister (register s id v) id = s) /\
  (forall name id0, serviceMap (NewMuxService name) !! id0 = None).
Proof.
  assert (Hdel : unregister (register s id v) id = unregister s id).
  { unfold unregister, register; simpl. by rewrite delete_insert_eq. }
  split_and!; try done.
  - unfold unregister, register; simpl. by rewrite insert_delete_eq.
  - intros Hnone. rewrite Hdel. by apply unregister_absent.
Qed.

(** X17. The router keeps out of the instance's business: for a registered
    chain id the chains' memory and the inner response after the call are
    the ones the instance's method produced from the caller's inner
    request and inner response, and nothing of the outcome depends on the
    envelope and database id the caller's response object came with. *)
Theorem forwarding_is_transparent m s v (req : MuxReq (InnerReq m))
    (resp : MuxResp (InnerResp m)) w :
  serviceMap s !! req_DatabaseID req = Some v ->
  let r := dispatch m s req resp w in
  heap (out_world r) = (instance_result m v req resp w).1.1 /\
  resp_Inner (out_resp r) = (instance_result m v req resp w).1.2 /\
  out_err r = (instance_result m v req resp w).2 /\
  (forall env id,
     dispatch m s req (mkMuxResp env id (resp_Inner resp)) w = r).
Proof.
  intros Hsome r. subst r. rewrite (dispatch_known _ _ _ _ _ _ Hsome).
  rewrite call_instance_heap, call_instance_inner, call_instance_err.
  split_and!; try done.
  intros env id.
  by rewrite (dispatch_known _ _ _ _ (mkMuxResp env id _) _ Hsome).
Qed.

(** X18. A routing method never erases a recorded instance call: the
    record afterwards is the record before followed by the new calls, of
    which there is one when the chain id is registered and none when it is
    not. *)
Theorem calls_only_grow m s (req : MuxReq (InnerReq m))
    (resp : MuxResp (InnerResp m)) w :
  let r := dispatch m s req resp w in
  calls (out_world r) = calls w ++ new_calls w (out_world r) /\
  length (new_calls w (out_world r))
    = match serviceMap s !! req_DatabaseID req with
      | Some _ => 1
      | None => 0
      end.
Proof.
  intros r. subst r. rewrite dispatch_body.
  destruct (serviceMap s !! req_DatabaseID req) as [v|]; simpl.
  - rewrite call_instance_new_calls. split; [|done].
    unfold call_instance. by destruct (instance_method m v _ _ _) as [[??]?].
  - unfold out_world; simpl. rewrite new_calls_refl.
    by rewrite app_nil_r.
Qed.
End MoreMuxProperties.

(** * The key file code on the toy crypto *)

Section OnTheToyDisk.
Import kms ToyKms.
#[local] Existing Instance toy.

Lemma toy_laws : @CryptoLaws toy.
Proof.
  split.
  - intros data password rnd out rnd' [= <- _]. simpl.
    by rewrite rev_involutive.
  - done.
  - by intros [].
  - by intros [].
Qed.

Lemma empty_fs_readable (path : string) : path ∉ unreadable empty_fs.
Proof. apply not_elem_of_empty. Qed.

(** On a disk with room for one byte the save fails in the middle of the
    write and leaves a one-byte key file. *)
Example save_on_a_full_disk :
  SavePrivateKey full_fs O key_path true []
    = (set_file full_fs key_path [Byte.x01], 1,
       Some (PathError "write" key_path)).
Proof. vm_compute. reflexivity. Qed.

(** The key saved on the empty disk loads, and it passed both checks. *)
Lemma LoadPrivateKey_sound_witness :
  (LoadPrivateKey good_fs key_path []).1 = Some true /\
  exists content decData,
    ReadFile good_fs key_path = (content, None) /\
    DecryptWithPassword content [] = (decData, None) /\
    length decData = HashBSize + PrivKeyBytesLen /\
    DoubleHashB (drop HashBSize decData) = take HashBSize decData /\
    true = (PrivKeyFromBytes (drop HashBSize decData)).1.
Proof.
  assert (Hkey : (LoadPrivateKey good_fs key_path []).1 = Some true)
    by (vm_compute; reflexivity).
  split; [exact Hkey|].
  exact (proj2 (LoadPrivateKey_sound good_fs key_path []) true Hkey).
Defined.

(** The key file cut short is no key file; the tampered one fails the
    hash check. *)
Lemma LoadPrivateKey_rejects_witness :
  ReadFile short_fs key_path = ([Byte.x01; Byte.x01], None) /\
  DecryptWithPassword [Byte.x01; Byte.x01] [] = ([Byte.x01], None) /\
  length [Byte.x01] <> HashBSize + PrivKeyBytesLen /\
  LoadPrivateKey short_fs key_path [] = (None, Some ErrNotKeyFile).
Proof.
  assert (Hread : ReadFile short_fs key_path
                  = ([Byte.x01; Byte.x01], None))
    by (vm_compute; reflexivity).
  assert (Hdec : DecryptWithPassword [Byte.x01; Byte.x01] []
                 = ([Byte.x01], None)) by reflexivity.
  assert (Hlen : length [Byte.x01] <> HashBSize + PrivKeyBytesLen)
    by discriminate.
  exact (conj Hread (conj Hdec (conj Hlen
           (proj1 (LoadPrivateKey_rejects short_fs key_path []
                     _ _ Hread Hdec) Hlen)))).
Defined.


(** Saved on the empty disk, the key [true] loads again. *)
Lemma save_then_load_witness :
  (key_path ∉ unreadable empty_fs) /\
  SavePrivateKey empty_fs O key_path true [] = (good_fs, 1, None) /\
  LoadPrivateKey good_fs key_path [] = (Some true, None).
Proof.
  assert (Hread : key_path ∉ unreadable empty_fs)
    by exact (empty_fs_readable key_path).
  assert (Hsave : SavePrivateKey empty_fs O key_path true []
                  = (good_fs, 1, None)) by (vm_compute; reflexivity).
  exact (conj Hread (conj Hsave
           (@save_then_load toy toy_laws empty_fs O key_path true []
              good_fs 1 Hread Hsave))).
Defined.

(** A node whose key file was tampered with gets the hash error back and
    keeps its disk: no new key is written over the file. *)
Lemma InitLocalKeyPair_keeps_file_witness :
  (LoadPrivateKey tampered_fs key_path []).2 = Some ErrHashNotMatch /\
  InitLocalKeyPair tampered_node key_path []
    = Some (tampered_node, Some ErrHashNotMatch).
Proof.
  assert (Hload : (LoadPrivateKey tampered_fs key_path []).2
                  = Some ErrHashNotMatch) by (vm_compute; reflexivity).
  split; [exact Hload|].
  destruct (InitLocalKeyPair_keeps_file tampered_node key_path [])
    as (_ & _ & Hkeep).
  exact (Hkeep ErrHashNotMatch Hload eq_refl
           (fun Heq => eq_ind ErrHashNotMatch
              (fun e => match e with ErrHashNotMatch => True | _ => False end)
              I OsErrNotExist Heq)).
Defined.

(** A node with an empty disk generates a key, keeps it on disk, and
    loads the same key the next time. *)
Lemma InitLocalKeyPair_generates_witness :
  (ReadFile (node_fs fresh_node) key_path).2 <> None /\
  GenSecp256k1KeyPair (node_rnd fresh_node) = (true, true, None, 1) /\
  InitLocalKeyPair fresh_node key_path [] = Some (keyed_node, None) /\
  (key_path ∉ unreadable (node_fs fresh_node)) /\
  node_store keyed_node = Some (true, true) /\
  LoadPrivateKey (node_fs keyed_node) key_path [] = (Some true, None).
Proof.
  assert (Hread : key_path ∉ unreadable (node_fs fresh_node))
    by exact (empty_fs_readable key_path).
  assert (Hmissing : (ReadFile (node_fs fresh_node) key_path).2 <> None)
    by (vm_compute; discriminate).
  assert (Hgen : GenSecp256k1KeyPair (node_rnd fresh_node)
                 = (true, true, None, 1)) by reflexivity.
  assert (Hinit : InitLocalKeyPair fresh_node key_path []
                  = Some (keyed_node, None)) by (vm_compute; reflexivity).
  destruct (@InitLocalKeyPair_generates toy toy_laws fresh_node keyed_node
              key_path [] true true 1 Hmissing Hgen Hinit)
    as (Hstore & _ & Hreload & _).
  exact (conj Hmissing (conj Hgen (conj Hinit (conj Hread
           (conj Hstore (proj1 (Hreload Hread))))))).
Defined.
End OnTheToyDisk.

(** * The encoding on the toy token *)

Section OnTheToyToken.
Import types ToyToken.
#[local] Existing Instance toy_hsp.
#[local] Existing Instance toy_fields.

Lemma raw_bound : @SizeBound toy_hsp bytes raw.
Proof. split. intros x o [= <-]. simpl. lia. Qed.

Lemma toy_field_laws : @FieldLaws toy_hsp toy_fields.
Proof.
  split; try exact raw_bound.
  split; simpl.
  - done.
  - lia.
  - intros o. rewrite length_app. simpl. lia.
  - intros o b. rewrite !length_app. simpl. lia.
Qed.

(** The toy header: sizes 1, 2, 0, 1 and 1 give 42, and the encoding has
    21 bytes. *)
Lemma TokenReceiveHeader_Msgsize_bound_witness :
  header_sizes_fit header /\
  TokenReceiveHeader_Msgsize header = 42%Z /\
  (Z.of_nat (length (TokenReceiveHeader_MarshalHash header).1)
     <= TokenReceiveHeader_Msgsize header)%Z.
Proof.
  assert (Hfit : header_sizes_fit header) by (vm_compute; intuition discriminate).
  destruct (@TokenReceiveHeader_Msgsize_bound toy_hsp toy_fields
              toy_field_laws header Hfit) as [Hsize Hbound].
  exact (conj Hfit (conj Hsize (Hbound _ eq_refl))).
Defined.

(** The unsigned toy receipt: both pointers nil. *)
Lemma TokenReceive_Msgsize_bound_witness :
  receive_sizes_fit unsigned /\
  TokenReceive_Msgsize unsigned = 93%Z /\
  (Z.of_nat (length (TokenReceive_MarshalHash unsigned).1)
     <= TokenReceive_Msgsize unsigned)%Z.
Proof.
  assert (Hfit : receive_sizes_fit unsigned)
    by (vm_compute; intuition discriminate).
  destruct (@TokenReceive_Msgsize_bound toy_hsp toy_fields
              toy_field_laws unsigned Hfit) as [Hsize Hbound].
  exact (conj Hfit (conj Hsize (Hbound _ eq_refl))).
Defined.
End OnTheToyToken.

(** * The config getters on the toy table *)

Section OnTheToyTable.
Import config ToyStore.
#[local] Existing Instance toy_store.

(** [Table] is the only type named ["Table"]. *)
Lemma ProjectConfigType_String_faithful_witness :
  String 2%Z = String ProjectConfigTable /\
  String 2%Z <> "Unknown" /\
  2%Z = ProjectConfigTable.
Proof.
  assert (Hsame : String 2%Z = String ProjectConfigTable) by reflexivity.
  assert (Hknown : String 2%Z <> "Unknown") by discriminate.
  exact (conj Hsame (conj Hknown
           (proj2 (ProjectConfigType_String_faithful 2%Z ProjectConfigTable)
              Hsame Hknown))).
Defined.

(** In the toy table, decoding the row ["half"] fails after allocating
    the config, and the table is listed; ["broken"] and ["old"] are not. *)
Lemma GetProjectTablesName_live_tables_witness :
  (Select toy_db SelectByType [IntArg ProjectConfigTable]).2 = None /\
  (Unmarshal_Table (RawValue (row 2 "half" [Byte.x05]))).2
    = Some (LibraryError 5) /\
  "half" ∈ (GetProjectTablesName toy_db).1.
Proof.
  assert (Hok : (Select toy_db SelectByType
                   [IntArg ProjectConfigTable]).2 = None) by reflexivity.
  assert (Hfail : (Unmarshal_Table (RawValue (row 2 "half" [Byte.x05]))).2
                  = Some (LibraryError 5)) by reflexivity.
  split; [exact Hok|]. split; [exact Hfail|].
  apply (proj2 (@GetProjectTablesName_live_tables toy_store toy_db)
           Hok "half").
  exists (row 2 "half" [Byte.x05]), (toy_table false).
  split; [|split; [reflexivity | split; reflexivity]].
  apply list_elem_of_In. vm_compute. tauto.
Defined.

(** The names the toy table gives. *)
Example toy_table_names :
  GetProjectTablesName toy_db = (["users"; "half"; "posts"], None).
Proof. vm_compute. reflexivity. Qed.

(** The group row decodes, and comes back with the [Value] it had: none. *)
Lemma getters_on_a_found_row_witness :
  SelectOne toy_db SelectOneByType [IntArg ProjectConfigGroup]
    = (Some (row 3 "groups" [Byte.x01]), None) /\
  GetProjectGroupConfig toy_db
    = Some (Some (row 3 "groups" [Byte.x01]),
            Some {| Groups := ∅ |}, None).
Proof.
  assert (Hsel : SelectOne toy_db SelectOneByType
                   [IntArg ProjectConfigGroup]
                 = (Some (row 3 "groups" [Byte.x01]), None))
    by (vm_compute; reflexivity).
  split; [exact Hsel|].
  exact (proj2 (proj2 (proj2
           (@getters_on_a_found_row toy_store toy_db
              (row 3 "groups" [Byte.x01])))) Hsel).
Defined.

(** Adding a misc config to the toy table succeeds both ways, with the
    same stored record. *)
Lemma AddProjectConfig_as_AddRaw_witness :
  (AddProjectConfig toy_db 1700 ProjectConfigMisc "misc"
     (MiscValue None)).2 = None /\
  (AddProjectConfig toy_db 1700 ProjectConfigMisc "misc"
     (MiscValue None)).1.2
  = (AddRawProjectConfig toy_db 1700
       {| ID := 0; Type_ := ProjectConfigMisc; Key := "misc";
          RawValue := []; Created := 0; LastUpdated := 0;
          Value := MiscValue None |}).1.2.
Proof.
  assert (Hok : (AddProjectConfig toy_db 1700 ProjectConfigMisc "misc"
                   (MiscValue None)).2 = None) by reflexivity.
  split; [exact Hok|].
  destruct (@AddProjectConfig_as_AddRaw toy_store toy_db 1700
              ProjectConfigMisc "misc" (MiscValue None))
    as (_ & _ & Hsame & _).
  exact (Hsame Hok).
Defined.
End OnTheToyTable.

(** For the test case [bp] the block producer is the old program. *)
Lemma choose_one_old_program_witness :
  compat_test.choose "bp"
    = Some (compat_test.mkBinaries (compat_test.NEW_BIN_DIR, "cql")
              (compat_test.OLD_BIN_DIR, "cqld")
              (compat_test.NEW_BIN_DIR, "cql-minerd")) /\
  compat_test.old_programs
    (compat_test.mkBinaries (compat_test.NEW_BIN_DIR, "cql")
       (compat_test.OLD_BIN_DIR, "cqld")
       (compat_test.NEW_BIN_DIR, "cql-minerd")) = ["cqld"].
Proof.
  assert (Hbp : compat_test.choose "bp"
                = Some (compat_test.mkBinaries
                          (compat_test.NEW_BIN_DIR, "cql")
                          (compat_test.OLD_BIN_DIR, "cqld")
                          (compat_test.NEW_BIN_DIR, "cql-minerd")))
    by reflexivity.
  split; [exact Hbp|].
  exact (proj1 (proj2 (choose_one_old_program "bp") _ Hbp)).
Defined.

(** * More on the router, on the node of the scenario *)

Section MoreOnTheNode.
Import QueryLifecycle Scenario.
#[local] Existing Instance lifecycle_types.
#[local] Existing Instance lifecycle_code.

(** Hosting a second database, ["db2"], does not change how ["db1"] is
    served, and dropping ["db2"] again does not either. *)
Lemma other_chains_unaffected_witness :
  req_DatabaseID acked1 <> "db2" /\
  dispatch MAdviseAckedQuery (register node "db2" 9) acked1
    (stale MAdviseAckedQuery tt) world0
  = dispatch MAdviseAckedQuery node acked1
      (stale MAdviseAckedQuery tt) world0 /\
  dispatch MAdviseAckedQuery (unregister node "db2") acked1
    (stale MAdviseAckedQuery tt) world0
  = dispatch MAdviseAckedQuery node acked1
      (stale MAdviseAckedQuery tt) world0.
Proof.
  assert (Hne : req_DatabaseID acked1 <> "db2") by discriminate.
  split; [exact Hne|].
  exact (other_chains_unaffected MAdviseAckedQuery node "db2" 9 acked1
           (stale MAdviseAckedQuery tt) world0 Hne).
Defined.

(** Registering ["db1"] on the new service and unregistering it gives the
    new service back. *)
Lemma register_unregister_round_trip_witness :
  serviceMap fresh !! "db1" = None /\
  unregister (register fresh "db1" 7) "db1" = fresh.
Proof.
  assert (Hnone : serviceMap fresh !! "db1" = None) by reflexivity.
  split; [exact Hnone|].
  exact (proj1 (proj2 (proj2
           (register_unregister_round_trip fresh "db1" 7))) Hnone).
Defined.

(** The early acknowledgment on the node: the instance's heap and error,
    whatever header the response object came with. *)
Lemma forwarding_is_transparent_witness :
  serviceMap node !! req_DatabaseID acked1 = Some 7 /\
  let r := dispatch MAdviseAckedQuery node acked1
             (stale MAdviseAckedQuery tt) world0 in
  heap (out_world r)
    = (instance_result MAdviseAckedQuery 7 acked1
         (stale MAdviseAckedQuery tt) world0).1.1 /\
  dispatch MAdviseAckedQuery node acked1 (mkMuxResp 5 "x" tt) world0 = r.
Proof.
  assert (Hsome : serviceMap node !! req_DatabaseID acked1 = Some 7)
    by reflexivity.
  split; [exact Hsome|].
  destruct (forwarding_is_transparent MAdviseAckedQuery node 7 acked1
              (stale MAdviseAckedQuery tt) world0 Hsome)
    as (Hheap & _ & _ & Hany).
  exact (conj Hheap (Hany 5 "x")).
Defined.
End MoreOnTheNode.
